(** * cpu_load.py: duty-cycle CPU load generator

    A shallow embedding of [src/cpu_load.py] and the properties of its
    worker loop, its coordinator ([main]) and its workload generator.

    Python floats are IEEE 754 binary64 numbers; they are modelled by the
    Standard Library's [spec_float] with precision 53 and maximal exponent
    1024, whose operations round to nearest, ties to even, as CPython's do. *)

From Stdlib Require Import ZArith List Bool String Ascii Lia.
From Stdlib Require Import Floats.SpecFloat.
Import ListNotations.
Local Open Scope Z_scope.

(** ** Binary64 arithmetic *)

Abbreviation float := spec_float.

Module F64.

Definition prec : Z := 53.
Definition emax : Z := 1024.

Definition add : float -> float -> float := SFadd prec emax.
Definition sub : float -> float -> float := SFsub prec emax.
Definition mul : float -> float -> float := SFmul prec emax.
Definition div : float -> float -> float := SFdiv prec emax.
Definition ltb : float -> float -> bool := SFltb.
Definition leb : float -> float -> bool := SFleb.
Definition valid : float -> bool := valid_binary prec emax.

(** [float.__bool__]: a float is falsy exactly when it compares equal to
    zero, so both zeros are falsy and NaN is truthy. *)
Definition truthy (x : float) : bool :=
  match x with
  | S754_zero _ => false
  | _ => true
  end.

(** Conversion of a Python int, correctly rounded. *)
Definition of_Z (n : Z) : float := binary_normalize prec emax n 0 false.

(** The literals of the source. *)
Definition zero : float := S754_zero false.                          (* 0.0 *)
Definition tenth : float := S754_finite false 7205759403792794 (-56). (* 0.1 *)
Definition half : float := S754_finite false 4503599627370496 (-53).  (* 0.5 *)
Definition hundred : float := S754_finite false 7036874417766400 (-46). (* 100.0 *)

End F64.

(** ** The duty-cycle worker, [cpu_load_worker] *)

(** What a worker does that is visible from outside: a call of
    [do_intensive_work()] or a call of [time.sleep(d)]. *)
Inductive action :=
| Work
| Sleep (d : float).

(** How a run ends: the function returned, an exception escaped, or the
    environment described by the oracles was used up with the loop still
    going. *)
Inductive status :=
| Returned
| Raised
| Running.

(** The interpreter's [time.sleep]: it raises (ValueError, OverflowError) on
    some lengths, a NaN or a negative number among them.  Which ones is the
    library's business; the model takes it as a parameter. *)
Definition sleep_policy := float -> bool.

(** [while time.perf_counter() < end_busy: do_intensive_work()].  The clock
    is the list of values the successive [perf_counter()] calls return; the
    result is the calls made and the readings left, [None] when the readings
    ran out inside the loop. *)
Fixpoint busy_loop (end_busy : float) (clock : list float)
  : list action * option (list float) :=
  match clock with
  | [] => ([], None)
  | t :: clock' =>
      if F64.ltb t end_busy
      then let (tr, rest) := busy_loop end_busy clock' in (Work :: tr, rest)
      else ([], Some clock')
  end.

(** The body of the [while not stop_event.is_set()] loop, iterated.  [flags]
    is the list of values the successive [stop_event.is_set()] calls
    return. *)
Fixpoint worker_loop (sleep_raises : sleep_policy)
    (busy_time sleep_time : float) (flags : list bool) (clock : list float)
  : list action * status :=
  match flags with
  | [] => ([], Running)
  | true :: _ => ([], Returned)
  | false :: flags' =>
      match clock with
      | [] => ([], Running)
      | now :: clock1 =>
          let end_busy := F64.add now busy_time in
          match busy_loop end_busy clock1 with
          | (tr, None) => (tr, Running)
          | (tr, Some clock2) =>
              if F64.ltb F64.zero sleep_time
              then
                if sleep_raises sleep_time then (tr, Raised)
                else
                  let (tr', st) :=
                    worker_loop sleep_raises busy_time sleep_time flags' clock2 in
                  (tr ++ Sleep sleep_time :: tr', st)
              else
                let (tr', st) :=
                  worker_loop sleep_raises busy_time sleep_time flags' clock2 in
                (tr ++ tr', st)
          end
      end
  end.

Definition cycle_time : float := F64.tenth.

Definition busy_time (target_percent : float) : float :=
  F64.mul cycle_time (F64.div target_percent F64.hundred).

Definition sleep_time (target_percent : float) : float :=
  F64.sub cycle_time (busy_time target_percent).

Definition cpu_load_worker (sleep_raises : sleep_policy)
    (target_percent : float) (flags : list bool) (clock : list float)
  : list action * status :=
  worker_loop sleep_raises (busy_time target_percent)
    (sleep_time target_percent) flags clock.

(** The algorithm as section 4.2 of the specification words it: the split is
    computed anew at the start of every cycle. *)
Fixpoint spec_worker (sleep_raises : sleep_policy)
    (target_percent : float) (flags : list bool) (clock : list float)
  : list action * status :=
  match flags with
  | [] => ([], Running)
  | true :: _ => ([], Returned)
  | false :: flags' =>
      let busy := F64.mul cycle_time (F64.div target_percent F64.hundred) in
      let idle := F64.sub cycle_time busy in
      match clock with
      | [] => ([], Running)
      | now :: clock1 =>
          let deadline := F64.add now busy in
          match busy_loop deadline clock1 with
          | (tr, None) => (tr, Running)
          | (tr, Some clock2) =>
              if F64.ltb F64.zero idle
              then
                if sleep_raises idle then (tr, Raised)
                else
                  let (tr', st) :=
                    spec_worker sleep_raises target_percent flags' clock2 in
                  (tr ++ Sleep idle :: tr', st)
              else
                let (tr', st) :=
                  spec_worker sleep_raises target_percent flags' clock2 in
                (tr ++ tr', st)
          end
      end
  end.

(** [perf_counter] is a monotonic clock: no reading is below the one
    before. *)
Fixpoint clock_monotone (clock : list float) : Prop :=
  match clock with
  | t0 :: ((t1 :: _) as rest) => F64.ltb t1 t0 = false /\ clock_monotone rest
  | _ => True
  end.

(** ** The coordinator, [main] *)

(** The parsed command line ([argparse]): [percentage] is a float, [--cores]
    an unbounded int or [None], [--duration] a float or [None]. *)
Record args := {
  percentage : float;
  cores : option Z;
  duration : option float
}.

(** What the host provides: the value of [multiprocessing.cpu_count()] and
    the lengths [time.sleep] refuses. *)
Record host := {
  cpu_count : nat;
  sleep_raises : sleep_policy
}.

(** What happens around a run.  [signals] gives, for each library call in
    which the coordinator can be interrupted (starting a process, sleeping,
    joining), the number of SIGINT/SIGTERM deliveries handled during that
    call, in order; past the end of the list no signal ever arrives.
    [still_alive i] is what [is_alive()] answers for worker [i] once its join
    has come back. *)
Record world := {
  signals : list nat;
  still_alive : nat -> bool
}.

Inductive signum := SIGINT | SIGTERM.

(** A printed line, cut at the places where an f-string inserts a value. *)
Inductive piece :=
| Str (s : string)
| Flt (x : float)
| Int (n : Z).

(** The coordinator's calls that are visible from outside, in order. *)
Inductive event :=
| Print (line : list piece)            (* print(...) *)
| PrintErr (line : list piece)         (* print(..., file=sys.stderr) *)
| SignalInstall (sig : signum)         (* signal.signal(sig, signal_handler) *)
| ProcStart (i : nat) (target : float) (* Process(target=cpu_load_worker, ...).start() *)
| TimeSleep (d : float)                (* time.sleep(d) *)
| EventSet                             (* stop_event.set() *)
| ProcJoin (i : nat) (timeout : Z)     (* p.join(timeout=...) *)
| ProcTerminate (i : nat).             (* p.terminate() *)

(** How the program ends: with an exit status, with an exception nobody
    catches, or never (it waits for a signal that does not come). *)
Inductive outcome :=
| Exited (code : Z)
| Uncaught
| Waiting.

(** The coordinator's state: the flag of the shared [stop_event], the signal
    deliveries still to come, and the calls made so far. *)
Record coord := {
  stop_event : bool;
  pending : list nat;
  out : list event
}.

Inductive res (A : Type) :=
| Val (a : A)
| Halt (o : outcome).
Arguments Val {A} a.
Arguments Halt {A} o.

Definition M (A : Type) : Type := coord -> res A * coord.

Definition ret {A} (a : A) : M A := fun s => (Val a, s).

Definition bind {A B} (c : M A) (k : A -> M B) : M B :=
  fun s =>
    match c s with
    | (Val a, s') => k a s'
    | (Halt o, s') => (Halt o, s')
    end.

Notation "x <- c ;; k" := (bind c (fun x => k))
  (at level 61, c at next level, right associativity).
Notation "c ;; k" := (bind c (fun _ => k))
  (at level 61, right associativity).

Definition emit (e : event) : M unit :=
  fun s => (Val tt, {| stop_event := stop_event s;
                       pending := pending s;
                       out := out s ++ [e] |}).

Definition halt {A} (o : outcome) : M A := fun s => (Halt o, s).

Definition print (line : list piece) : M unit := emit (Print line).
Definition print_err (line : list piece) : M unit := emit (PrintErr line).
Definition sys_exit {A} (code : Z) : M A := halt (Exited code).

(** [stop_event.set()] and [stop_event.is_set()]. *)
Definition event_set : M unit :=
  fun s => (Val tt, {| stop_event := true;
                       pending := pending s;
                       out := out s ++ [EventSet] |}).

Definition is_set : M bool := fun s => (Val (stop_event s), s).

Definition newline : string := String (ascii_of_nat 10) EmptyString.

(** The handler installed for SIGINT and SIGTERM (lines 118-120). *)
Definition signal_handler : M unit :=
  print [Str newline; Str "Stopping CPU load generator..."] ;;
  event_set.

Fixpoint repeat_M (n : nat) (c : M unit) : M unit :=
  match n with
  | O => ret tt
  | S n' => c ;; repeat_M n' c
  end.

(** The signals that arrive during one interruptible call: the handler runs
    once for each. *)
Definition deliver : M unit :=
  fun s =>
    match pending s with
    | [] => (Val tt, s)
    | n :: rest =>
        repeat_M n signal_handler
          {| stop_event := stop_event s; pending := rest; out := out s |}
    end.

(** [time.sleep(d)]: refused lengths raise; otherwise the call sleeps [d]
    seconds in all, resuming after each handled signal. *)
Definition time_sleep (h : host) (d : float) : M unit :=
  if sleep_raises h d then halt Uncaught
  else emit (TimeSleep d) ;; deliver.

Definition proc_start (i : nat) (target : float) : M unit :=
  emit (ProcStart i target) ;; deliver.

Definition proc_join (i : nat) (timeout : Z) : M unit :=
  emit (ProcJoin i timeout) ;; deliver.

Definition proc_terminate (i : nat) : M unit := emit (ProcTerminate i).

Fixpoint for_each {A} (l : list A) (body : A -> M unit) : M unit :=
  match l with
  | [] => ret tt
  | x :: l' => body x ;; for_each l' body
  end.

(** [while not stop_event.is_set(): time.sleep(0.5)].  Every sleep uses up
    one entry of the signal oracle, so the oracle's length bounds the number
    of rounds in which something can still change; once it is used up with
    the flag unset, the loop goes on for ever. *)
Fixpoint poll (h : host) (rounds : nat) : M unit :=
  fun s =>
    if stop_event s then (Val tt, s)
    else
      match rounds with
      | O => (Halt Waiting, s)
      | S rounds' => (time_sleep h F64.half ;; poll h rounds') s
      end.

Definition wait_for_stop (h : host) : M unit :=
  fun s => poll h (List.length (pending s)) s.

(** Truthiness of [args.cores] and [args.duration]: [None] and zero are
    falsy. *)
Definition cores_given (c : option Z) : option Z :=
  match c with
  | Some n => if n =? 0 then None else Some n
  | None => None
  end.

Definition duration_given (d : option float) : option float :=
  match d with
  | Some x => if F64.truthy x then Some x else None
  | None => None
  end.

(** [not 0 <= args.percentage <= 100] *)
Definition percentage_invalid (p : float) : bool :=
  negb (F64.leb F64.zero p && F64.leb p F64.hundred).

(** [args.cores if args.cores else multiprocessing.cpu_count()] *)
Definition num_cores (h : host) (a : args) : Z :=
  match cores_given (cores a) with
  | Some n => n
  | None => Z.of_nat (cpu_count h)
  end.

(** [range(num_cores)] *)
Definition py_range (n : Z) : list nat := seq 0 (Z.to_nat n).

Definition stopped_line : list piece := [Str "CPU load generator stopped."].
Definition until_ctrl_c_line : list piece := [Str "  Duration: Until Ctrl+C"].

(** The blocks of [main], in the order of the source. *)

(** Lines 97-100: validate percentage. *)
Definition validate_percentage (a : args) : M unit :=
  if percentage_invalid (percentage a)
  then print_err [Str "Error: Percentage must be between 0 and 100"] ;;
       sys_exit 1
  else ret tt.

(** Lines 105-112: the startup summary. *)
Definition print_summary (h : host) (a : args) : M unit :=
  print [Str "Starting CPU load generator:"] ;;
  print [Str "  Target CPU usage: "; Flt (percentage a); Str "%"] ;;
  print [Str "  Number of cores: "; Int (num_cores h a)] ;;
  match duration_given (duration a) with
  | Some d => print [Str "  Duration: "; Flt d; Str " seconds"]
  | None => print until_ctrl_c_line
  end ;;
  print [].

(** Lines 122-123. *)
Definition install_handlers : M unit :=
  emit (SignalInstall SIGINT) ;;
  emit (SignalInstall SIGTERM).

(** Lines 126-133: start worker processes; the result is the list
    [processes], a worker being named by its index. *)
Definition start_workers (h : host) (a : args) : M (list nat) :=
  let processes := py_range (num_cores h a) in
  for_each processes (fun i => proc_start i (percentage a)) ;;
  ret processes.

(** Lines 138-147: wait for the duration or until interrupted.  The
    handlers replace the default SIGINT handler before anything can block, so
    [KeyboardInterrupt] is never raised inside the [try] and its [except]
    clause has nothing to catch; an exception of [time.sleep] is of another
    class and escapes. *)
Definition wait_phase (h : host) (a : args) : M unit :=
  match duration_given (duration a) with
  | Some d => time_sleep h d ;; event_set
  | None => wait_for_stop h
  end.

(** Lines 150-154: stop all processes. *)
Definition stop_all (alive : nat -> bool) (processes : list nat) : M unit :=
  event_set ;;
  for_each processes (fun p =>
    proc_join p 2 ;;
    if alive p then proc_terminate p else ret tt).

Definition main_body (h : host) (a : args) (alive : nat -> bool) : M unit :=
  validate_percentage a ;;
  print_summary h a ;;
  install_handlers ;;
  processes <- start_workers h a ;;
  print [Str "Running on "; Int (num_cores h a);
         Str " cores. Press Ctrl+C to stop."] ;;
  wait_phase h a ;;
  stop_all alive processes ;;
  print stopped_line.

(** A run of the program: the calls it makes and how it ends.  [stop_event]
    starts unset; falling off the end of [main] exits with status 0. *)
Definition main (h : host) (a : args) (w : world) : list event * outcome :=
  match main_body h a (still_alive w)
          {| stop_event := false; pending := signals w; out := [] |} with
  | (Val _, s) => (out s, Exited 0)
  | (Halt o, s) => (out s, o)
  end.

(** The workers a run has launched. *)
Definition launched (tr : list event) : list nat :=
  flat_map (fun e => match e with ProcStart i _ => [i] | _ => [] end) tr.

(** ** The shared stop signal *)

(** The places of the source that touch [stop_event], by who runs them: a
    worker's loop test (line 62), the coordinator's poll (line 144), the
    coordinator's two [set()] calls (lines 141 and 150), and the signal
    handler (line 120).  No other method of the event is called anywhere. *)
Inductive stop_op :=
| WorkerCheck (i : nat)
| CoordCheck
| CoordSet
| Interrupt.

Definition state_after {A} (c : M A) (s : coord) : coord := snd (c s).

(** One such operation, atomic, on the state that holds the flag.  A
    worker's test reads the flag and changes nothing. *)
Definition stop_step (op : stop_op) (s : coord) : coord :=
  match op with
  | WorkerCheck _ => s
  | CoordCheck => state_after is_set s
  | CoordSet => state_after event_set s
  | Interrupt => state_after signal_handler s
  end.

(** Any interleaving of them. *)
Definition stop_run (ops : list stop_op) (s : coord) : coord :=
  fold_left (fun s op => stop_step op s) ops s.

(** ** Vocabulary for reasoning about runs of the coordinator *)

(** [extends P s s']: from [s] to [s'] the log has only grown, by calls that
    satisfy [P]; the flag, if it was set, still is; and if the growth contains
    a [set()], the flag is set at the end. *)
Definition extends (P : event -> Prop) (s s' : coord) : Prop :=
  exists tr,
    out s' = out s ++ tr /\
    Forall P tr /\
    (stop_event s = true -> stop_event s' = true) /\
    (In EventSet tr -> stop_event s' = true).

Definition run_extends (P : event -> Prop) {A} (c : M A) : Prop :=
  forall s, extends P s (snd (c s)).

(** A computation that always comes back with a value. *)
Definition total {A} (c : M A) : Prop :=
  forall s, exists a, fst (c s) = Val a.

(** Predicates on calls that hold of everything the coordinator does apart
    from starting a process and printing the final line. *)
Definition covers (P : event -> Prop) : Prop :=
  (forall line, line <> stopped_line -> P (Print line)) /\
  (forall line, P (PrintErr line)) /\
  (forall sig, P (SignalInstall sig)) /\
  (forall d, P (TimeSleep d)) /\
  P EventSet /\
  (forall i t, P (ProcJoin i t)) /\
  (forall i, P (ProcTerminate i)).

Definition not_stopped_line (e : event) : Prop := e <> Print stopped_line.

Definition not_a_start (e : event) : Prop :=
  match e with ProcStart _ _ => False | _ => True end.

(** A world in which no signal is ever delivered. *)
Definition quiet (s : coord) : Prop :=
  stop_event s = false /\ Forall (fun n => n = O) (pending s).

Definition stopping_line : list piece :=
  [Str newline; Str "Stopping CPU load generator..."].

Definition keeps_quiet {A} (c : M A) : Prop :=
  forall s, quiet s -> quiet (snd (c s)).

(** The claim about [--cores] as the specification words it, at one
    command line: an omitted or non-positive value gives as many workers as
    the host has processing units. *)
Definition cores_default_as_specified (h : host) (a : args) (w : world)
  : Prop :=
  (cores a = None \/ exists c, cores a = Some c /\ c <= 0) ->
  List.length (launched (fst (main h a w))) = cpu_count h.

(** ** Vocabulary for the rounding of binary64 *)

(** [rne m k]: [m / 2 ^ k] rounded to the nearest integer, ties to even. *)
Definition rne (m k : Z) : Z :=
  let q := m / 2 ^ k in
  let rem := m mod 2 ^ k in
  let h := 2 ^ (k - 1) in
  if rem <? h then q
  else if h <? rem then q + 1
  else if Z.even q then q else q + 1.

(** The number of places by which [shr_fexp] shifts a mantissa [m] that
    stands at exponent [e]. *)
Definition shift_of (m e : Z) : Z :=
  Z.max 0 (fexp 53 1024 (Zdigits2 m + e) - e).

(** A binary64 number that is not negative and whose value is at most 0.1:
    a zero, or a positive finite number [m * 2 ^ e] with [m] below [2 ^ 53]
    and [m * 2 ^ e <= 7205759403792794 * 2 ^ -56]. *)
Definition below_tenth (b : float) : Prop :=
  match b with
  | S754_zero _ => True
  | S754_finite false m e =>
      -1074 <= e <= -56 /\
      Zpos m < 2 ^ 53 /\
      Zpos m <= 7205759403792794 * 2 ^ (-56 - e)
  | _ => False
  end.

(** A binary64 number that is not negative and whose value is at most 1. *)
Definition at_most_one (q : float) : Prop :=
  match q with
  | S754_zero _ => True
  | S754_finite false m e => e <= 0 /\ Zpos m <= 2 ^ (- e)
  | _ => False
  end.

(** ** Vocabulary for the further properties *)

(** The number of [time.sleep] calls in a worker's run. *)
Definition count_sleeps (tr : list action) : nat :=
  List.length
    (filter (fun a => match a with Sleep _ => true | Work => false end) tr).

(** A binary64 number that is a zero or a positive finite number: not a NaN,
    not an infinity, not below zero. *)
Definition finite_nonneg (x : float) : Prop :=
  match x with
  | S754_zero _ => True
  | S754_finite false _ _ => True
  | _ => False
  end.

(** The calls the coordinator can make before it starts to wait, for a
    target [p]: printing a line other than the final one, installing a
    handler, starting a worker on [p], and the [set()] of a handler that
    runs meanwhile. *)
Definition startup_event (p : float) (e : event) : Prop :=
  match e with
  | Print line => line <> stopped_line
  | SignalInstall _ => True
  | ProcStart _ t => t = p
  | EventSet => True
  | _ => False
  end.

(** Every worker that is started is started on the target [p]. *)
Definition target_is (p : float) (e : event) : Prop :=
  match e with
  | ProcStart _ t => t = p
  | _ => True
  end.

(** The five lines of the startup summary (lines 105-112), as calls. *)
Definition summary_lines (h : host) (a : args) : list event :=
  [ Print [Str "Starting CPU load generator:"];
    Print [Str "  Target CPU usage: "; Flt (percentage a); Str "%"];
    Print [Str "  Number of cores: "; Int (num_cores h a)];
    match duration_given (duration a) with
    | Some d => Print [Str "  Duration: "; Flt d; Str " seconds"]
    | None => Print until_ctrl_c_line
    end;
    Print [] ].

(** A state from which the stop flag is or will be set: it is set already,
    or a signal is still to be delivered. *)
Definition armed (s : coord) : Prop :=
  stop_event s = true \/ Exists (fun n => n <> O) (pending s).

(** ** The integer part of the workload generator *)

(** One round of lines 45-46: [n = (n * 1103515245 + 12345) & 0x7FFFFFFF],
    on Python's unbounded integers. *)
Definition lcg_step (n : Z) : Z :=
  Z.land (n * 1103515245 + 12345) 2147483647.

(** [k] rounds of it. *)
Fixpoint lcg_iter (k : nat) (n : Z) : Z :=
  match k with
  | O => n
  | S k' => lcg_iter k' (lcg_step n)
  end.

(** Lines 44-46: ten rounds from the prime 104729. *)
Definition lcg_result : Z := lcg_iter 10 104729.

(** Line 48, [return result + n]: the int is converted to a float and added
    to the floating-point accumulator, whatever that has come to. *)
Definition work_return (result : float) : float :=
  F64.add result (F64.of_Z lcg_result).

(** The workers a run has joined, and those it has terminated, in order. *)
Definition joined (tr : list event) : list nat :=
  flat_map (fun e => match e with ProcJoin i _ => [i] | _ => [] end) tr.

Definition terminated (tr : list event) : list nat :=
  flat_map (fun e => match e with ProcTerminate i => [i] | _ => [] end) tr.

(** A call that is neither a join nor a terminate. *)
Definition no_shutdown_call (e : event) : Prop :=
  match e with
  | ProcJoin _ _ | ProcTerminate _ => False
  | _ => True
  end.

(** The one length the coordinator sleeps: the duration when one is given,
    otherwise the polling period of line 145. *)
Definition wait_length (a : args) : float :=
  match duration_given (duration a) with
  | Some d => d
  | None => F64.half
  end.

(** Every sleep of the coordinator has length [d]. *)
Definition sleeps_are (d : float) (e : event) : Prop :=
  match e with
  | TimeSleep x => x = d
  | _ => True
  end.

(** * Properties *)

(** ** Comparisons of binary64 numbers *)

Lemma SFcompare_antisym (x y : float) :
  SFcompare y x = option_map CompOpp (SFcompare x y).
Proof.
  destruct x as [sx|sx| |sx mx ex], y as [sy|sy| |sy my ey]; simpl;
    try reflexivity;
    try (destruct sx; reflexivity);
    try (destruct sy; reflexivity);
    try (destruct sx, sy; reflexivity).
  destruct sx, sy; simpl; try reflexivity.
  - rewrite (Z.compare_antisym ex ey).
    destruct (ex ?= ey) eqn:E; simpl; try reflexivity.
    rewrite (Pos.compare_cont_antisym mx my Eq). reflexivity.
  - rewrite (Z.compare_antisym ex ey).
    destruct (ex ?= ey) eqn:E; simpl; try reflexivity.
    rewrite (Pos.compare_cont_antisym mx my Eq). reflexivity.
Qed.

Lemma ltb_not_leb (x y : float) :
  F64.ltb x y = true -> F64.leb y x = false.
Proof.
  unfold F64.ltb, F64.leb, SFltb, SFleb.
  rewrite (SFcompare_antisym x y).
  destruct (SFcompare x y) as [[ | | ]|]; simpl; congruence.
Qed.

(** Adding a zero does not move a number as far as comparisons can tell. *)
Lemma compare_add_zero (t now : float) (s : bool) :
  SFcompare t (F64.add now (S754_zero s)) = SFcompare t now.
Proof.
  destruct now as [s0|s0| |s0 m0 e0]; simpl; try reflexivity.
  - destruct s0, s; reflexivity.
Qed.

(** ** The worker at the two ends of the range *)

Lemma busy_time_zero (s : bool) : busy_time (S754_zero s) = S754_zero s.
Proof. destruct s; reflexivity. Qed.

Lemma sleep_time_zero (s : bool) : sleep_time (S754_zero s) = cycle_time.
Proof. destruct s; reflexivity. Qed.

Lemma clock_monotone_tail (t : float) (clock : list float) :
  clock_monotone (t :: clock) -> clock_monotone clock.
Proof.
  destruct clock as [|t1 rest]; simpl; [trivial | tauto].
Qed.

Lemma busy_loop_zero_budget (now : float) (s : bool) (clock1 : list float) :
  clock_monotone (now :: clock1) ->
  busy_loop (F64.add now (S754_zero s)) clock1
  = ([], match clock1 with [] => None | _ :: rest => Some rest end).
Proof.
  destruct clock1 as [|t1 rest]; simpl; [reflexivity|].
  intros [Hlt _].
  unfold F64.ltb, SFltb in *.
  rewrite compare_add_zero.
  destruct (SFcompare t1 now) as [[ | | ]|]; try reflexivity; discriminate.
Qed.

Lemma worker_loop_zero_budget (sr : sleep_policy) (s : bool)
    (flags : list bool) (clock : list float) :
  clock_monotone clock ->
  Forall (fun a => a = Sleep cycle_time)
    (fst (worker_loop sr (S754_zero s) cycle_time flags clock)).
Proof.
  revert clock.
  induction flags as [|b flags IH]; intros clock Hmono; simpl.
  - constructor.
  - destruct b; [constructor|].
    destruct clock as [|now clock1]; [constructor|].
    rewrite (busy_loop_zero_budget now s clock1 Hmono).
    destruct clock1 as [|t1 rest]; [constructor|].
    assert (Hrest : clock_monotone rest)
      by (apply clock_monotone_tail with t1, clock_monotone_tail with now;
          exact Hmono).
    specialize (IH rest Hrest).
    change (F64.ltb F64.zero cycle_time) with true. cbv iota.
    destruct (sr cycle_time); [constructor|].
    destruct (worker_loop sr (S754_zero s) cycle_time flags rest) as [tr' st].
    simpl in *. constructor; [reflexivity | exact IH].
Qed.

Lemma busy_loop_only_works (end_busy : float) (clock : list float) :
  Forall (fun a => a = Work) (fst (busy_loop end_busy clock)).
Proof.
  induction clock as [|t clock IH]; simpl; [constructor|].
  destruct (F64.ltb t end_busy); [|constructor].
  destruct (busy_loop end_busy clock) as [tr rest]. simpl in *.
  constructor; [reflexivity | exact IH].
Qed.

Lemma worker_loop_no_sleep (sr : sleep_policy) (busy idle : float)
    (flags : list bool) (clock : list float) :
  F64.ltb F64.zero idle = false ->
  Forall (fun a => a = Work) (fst (worker_loop sr busy idle flags clock)).
Proof.
  intros Hidle. revert clock.
  induction flags as [|b flags IH]; intros clock; simpl.
  - constructor.
  - destruct b; [constructor|].
    destruct clock as [|now clock1]; [constructor|].
    pose proof (busy_loop_only_works (F64.add now busy) clock1) as Hb.
    destruct (busy_loop (F64.add now busy) clock1) as [tr [clock2|]];
      simpl in Hb; [|exact Hb].
    rewrite Hidle.
    specialize (IH clock2).
    destruct (worker_loop sr busy idle flags clock2) as [tr' st].
    simpl in *. apply Forall_app. split; assumption.
Qed.

(** C4. With a target percentage of exactly 0 (either zero of binary64) the
    idle time is the whole cycle window of 0.1 s, and on a monotonic clock
    every call the worker makes is a sleep of that length: the workload
    generator is never invoked. *)
Theorem zero_percent_only_sleeps (sr : sleep_policy) (p : float)
    (flags : list bool) (clock : list float) :
  SFeqb p F64.zero = true ->
  clock_monotone clock ->
  sleep_time p = cycle_time /\
  cycle_time = F64.tenth /\
  Forall (fun a => a = Sleep cycle_time)
    (fst (cpu_load_worker sr p flags clock)) /\
  ~ In Work (fst (cpu_load_worker sr p flags clock)).
Proof.
  intros Hp Hmono.
  assert (Hz : exists s, p = S754_zero s).
  { destruct p as [s|s| |s m e]; [eauto | | | ]; exfalso;
      try destruct s; discriminate Hp. }
  destruct Hz as [s ->].
  assert (Hall : Forall (fun a => a = Sleep cycle_time)
                   (fst (cpu_load_worker sr (S754_zero s) flags clock))).
  { unfold cpu_load_worker. rewrite busy_time_zero, sleep_time_zero.
    apply worker_loop_zero_budget, Hmono. }
  split; [apply sleep_time_zero|]. split; [reflexivity|].
  split; [exact Hall|].
  intros Hin. rewrite Forall_forall in Hall.
    specialize (Hall _ Hin). discriminate.
Qed.

Lemma zero_percent_only_sleeps_witness :
  let clock := [F64.of_Z 1; F64.of_Z 1; F64.of_Z 2; F64.of_Z 3] in
  let flags := [false; false; true] in
  let sr : sleep_policy := fun d => negb (F64.leb F64.zero d) in
  SFeqb (S754_zero true) F64.zero = true /\
  clock_monotone clock /\
  sleep_time (S754_zero true) = cycle_time /\
  cycle_time = F64.tenth /\
  Forall (fun a => a = Sleep cycle_time)
    (fst (cpu_load_worker sr (S754_zero true) flags clock)) /\
  ~ In Work (fst (cpu_load_worker sr (S754_zero true) flags clock)).
Proof.
  intros clock flags sr.
  split; [reflexivity|].
  split; [simpl; repeat split|].
  apply (zero_percent_only_sleeps sr (S754_zero true) flags clock).
  - reflexivity.
  - simpl; repeat split.
Defined.

(** C5. With a target percentage of exactly 100 the idle time is zero, hence
    not above 0, and the worker never calls sleep: whatever the clock and the
    stop flag do, all its calls are calls of the workload generator. *)
Theorem full_percent_never_sleeps (sr : sleep_policy)
    (flags : list bool) (clock : list float) :
  sleep_time F64.hundred = F64.zero /\
  F64.leb (sleep_time F64.hundred) F64.zero = true /\
  Forall (fun a => a = Work)
    (fst (cpu_load_worker sr F64.hundred flags clock)) /\
  (forall d, ~ In (Sleep d) (fst (cpu_load_worker sr F64.hundred flags clock))).
Proof.
  assert (Hall : Forall (fun a => a = Work)
                   (fst (cpu_load_worker sr F64.hundred flags clock))).
  { unfold cpu_load_worker. apply worker_loop_no_sleep. reflexivity. }
  split; [reflexivity|]. split; [reflexivity|]. split; [exact Hall|].
  intros d Hin. rewrite Forall_forall in Hall.
  specialize (Hall _ Hin). discriminate.
Qed.

(** The sleep phase is skipped whenever the idle time is not above 0. *)
Lemma no_sleep_when_idle_not_positive (sr : sleep_policy) (p : float)
    (flags : list bool) (clock : list float) (d : float) :
  F64.ltb F64.zero (sleep_time p) = false ->
  ~ In (Sleep d) (fst (cpu_load_worker sr p flags clock)).
Proof.
  intros Hidle Hin.
  pose proof (worker_loop_no_sleep sr (busy_time p) (sleep_time p)
                flags clock Hidle) as Hall.
  rewrite Forall_forall in Hall. specialize (Hall _ Hin). discriminate.
Qed.

(** C10. Computing the split once before the loop, as [cpu_load_worker]
    does, gives the same run as the specification's algorithm, which computes
    it at the start of each cycle: same calls, same end, for every target,
    stop-flag history and clock. *)
Theorem split_hoisting_is_sound (sr : sleep_policy) (p : float)
    (flags : list bool) (clock : list float) :
  cpu_load_worker sr p flags clock = spec_worker sr p flags clock.
Proof.
  unfold cpu_load_worker, sleep_time, busy_time.
  revert clock.
  induction flags as [|b flags IH]; intros clock;
    cbn [worker_loop spec_worker]; [reflexivity|].
  destruct b; [reflexivity|].
  destruct clock as [|now clock1]; [reflexivity|].
  cbv zeta.
  destruct (busy_loop _ clock1) as [tr [clock2|]]; [|reflexivity].
  rewrite (IH clock2). reflexivity.
Qed.

(** ** Runs of the coordinator: how the log and the flag evolve *)

Lemma extends_refl (P : event -> Prop) (s : coord) : extends P s s.
Proof.
  exists []. rewrite app_nil_r.
  split; [reflexivity|]. split; [constructor|]. split; [auto | intros []].
Qed.

Lemma extends_trans (P : event -> Prop) (s1 s2 s3 : coord) :
  extends P s1 s2 -> extends P s2 s3 -> extends P s1 s3.
Proof.
  intros (tr1 & E1 & F1 & M1 & L1) (tr2 & E2 & F2 & M2 & L2).
  exists (tr1 ++ tr2). split; [|split; [|split]].
  - rewrite E2, E1, app_assoc. reflexivity.
  - apply Forall_app; split; assumption.
  - auto.
  - intros Hin. apply in_app_or in Hin. destruct Hin; auto.
Qed.

Lemma extends_weaken (P Q : event -> Prop) (s s' : coord) :
  (forall e, P e -> Q e) -> extends P s s' -> extends Q s s'.
Proof.
  intros HPQ (tr & E & F & Mo & L). exists tr.
  split; [exact E|]. split; [|split; assumption].
  eapply Forall_impl; eauto.
Qed.

Section Runs.

Variable P : event -> Prop.

Lemma run_ret {A} (a : A) : run_extends P (ret a).
Proof. intros s. apply extends_refl. Qed.

Lemma run_halt {A} (o : outcome) : run_extends P (@halt A o).
Proof. intros s. apply extends_refl. Qed.

Lemma run_bind {A B} (c : M A) (k : A -> M B) :
  run_extends P c -> (forall a, run_extends P (k a)) ->
  run_extends P (bind c k).
Proof.
  intros Hc Hk s. unfold bind.
  specialize (Hc s). destruct (c s) as [[a|o] s1]; simpl in *.
  - eapply extends_trans; [exact Hc | apply Hk].
  - exact Hc.
Qed.

Lemma run_emit (e : event) : P e -> e <> EventSet -> run_extends P (emit e).
Proof.
  intros He Hne s. exists [e]. simpl.
  split; [reflexivity|]. split; [constructor; [exact He | constructor]|].
  split; [auto|]. intros [H|[]]. congruence.
Qed.

Lemma run_event_set : P EventSet -> run_extends P event_set.
Proof.
  intros He s. exists [EventSet]. simpl.
  split; [reflexivity|]. split; [constructor; [exact He | constructor]|].
  split; auto.
Qed.

Lemma run_is_set : run_extends P is_set.
Proof. intros s. apply extends_refl. Qed.

Lemma run_print (line : list piece) :
  P (Print line) -> run_extends P (print line).
Proof. intros H. apply run_emit; [exact H | discriminate]. Qed.

Lemma run_repeat_M (n : nat) (c : M unit) :
  run_extends P c -> run_extends P (repeat_M n c).
Proof.
  intros Hc. induction n as [|n IH]; simpl.
  - apply run_ret.
  - apply run_bind; auto.
Qed.

Hypothesis P_covers : covers P.

Lemma run_signal_handler : run_extends P signal_handler.
Proof.
  destruct P_covers as (Hp & _ & _ & _ & Hs & _).
  apply run_bind; [|intros _; apply run_event_set, Hs].
  apply run_print, Hp. discriminate.
Qed.

Lemma run_deliver : run_extends P deliver.
Proof.
  intros s. unfold deliver.
  destruct (pending s) as [|n rest]; [apply extends_refl|].
  eapply extends_trans; [|apply run_repeat_M, run_signal_handler].
  exists []. simpl. rewrite app_nil_r.
  split; [reflexivity|]. split; [constructor|]. split; [auto | intros []].
Qed.

Lemma run_time_sleep (h : host) (d : float) : run_extends P (time_sleep h d).
Proof.
  unfold time_sleep. destruct (sleep_raises h d); [apply run_halt|].
  destruct P_covers as (_ & _ & _ & Ht & _).
  apply run_bind; [|intros _; apply run_deliver].
  apply run_emit; [apply Ht | discriminate].
Qed.

Lemma run_proc_start (i : nat) (t : float) :
  P (ProcStart i t) -> run_extends P (proc_start i t).
Proof.
  intros H. apply run_bind; [|intros _; apply run_deliver].
  apply run_emit; [exact H | discriminate].
Qed.

Lemma run_proc_join (i : nat) (t : Z) : run_extends P (proc_join i t).
Proof.
  destruct P_covers as (_ & _ & _ & _ & _ & Hj & _).
  apply run_bind; [|intros _; apply run_deliver].
  apply run_emit; [apply Hj | discriminate].
Qed.

Lemma run_proc_terminate (i : nat) : run_extends P (proc_terminate i).
Proof.
  destruct P_covers as (_ & _ & _ & _ & _ & _ & Ht).
  apply run_emit; [apply Ht | discriminate].
Qed.

Lemma run_for_each {A} (l : list A) (body : A -> M unit) :
  (forall x, run_extends P (body x)) -> run_extends P (for_each l body).
Proof.
  intros Hb. induction l as [|x l IH]; simpl.
  - apply run_ret.
  - apply run_bind; auto.
Qed.

Lemma run_poll (h : host) (rounds : nat) : run_extends P (poll h rounds).
Proof.
  induction rounds as [|n IH]; intros s; simpl.
  - destruct (stop_event s); apply extends_refl.
  - destruct (stop_event s); [apply extends_refl|].
    apply (run_bind (time_sleep h F64.half) (fun _ => poll h n)).
    + apply run_time_sleep.
    + intros _. exact IH.
Qed.

Lemma run_wait_phase (h : host) (a : args) : run_extends P (wait_phase h a).
Proof.
  unfold wait_phase. destruct (duration_given (duration a)) as [d|].
  - apply run_bind; [apply run_time_sleep|].
    intros _. apply run_event_set. apply P_covers.
  - intros s. apply run_poll.
Qed.

Lemma run_stop_all (alive : nat -> bool) (processes : list nat) :
  run_extends P (stop_all alive processes).
Proof.
  apply run_bind; [apply run_event_set, P_covers|].
  intros _. apply run_for_each. intros p.
  apply run_bind; [apply run_proc_join|].
  intros _. destruct (alive p); [apply run_proc_terminate | apply run_ret].
Qed.

Lemma run_validate_percentage (a : args) :
  run_extends P (validate_percentage a).
Proof.
  unfold validate_percentage.
  destruct (percentage_invalid (percentage a)); [|apply run_ret].
  apply run_bind; [|intros _; apply run_halt].
  apply run_emit; [apply P_covers | discriminate].
Qed.

Lemma run_print_summary (h : host) (a : args) :
  run_extends P (print_summary h a).
Proof.
  destruct P_covers as (Hp & _).
  unfold print_summary.
  repeat (apply run_bind; [|intros _]);
    try (apply run_print, Hp; discriminate).
  destruct (duration_given (duration a));
    apply run_print, Hp; discriminate.
Qed.

Lemma run_install_handlers : run_extends P install_handlers.
Proof.
  destruct P_covers as (_ & _ & Hi & _).
  apply run_bind; [|intros _]; (apply run_emit; [apply Hi | discriminate]).
Qed.

Lemma run_start_workers (h : host) (a : args) :
  (forall i t, P (ProcStart i t)) -> run_extends P (start_workers h a).
Proof.
  intros Hs. apply run_bind; [|intros _; apply run_ret].
  apply run_for_each. intros i. apply run_proc_start, Hs.
Qed.

End Runs.

Lemma covers_true : covers (fun _ => True).
Proof. repeat split. Qed.

Lemma covers_not_stopped_line : covers not_stopped_line.
Proof.
  unfold not_stopped_line. repeat split; intros; try discriminate.
  congruence.
Qed.

Lemma covers_not_a_start : covers not_a_start.
Proof. repeat split. Qed.

(** The whole of [main], with every call allowed. *)
Lemma run_main_body (h : host) (a : args) (alive : nat -> bool) :
  run_extends (fun _ => True) (main_body h a alive).
Proof.
  pose proof covers_true as C.
  unfold main_body.
  apply run_bind; [apply run_validate_percentage, C | intros _].
  apply run_bind; [apply run_print_summary, C | intros _].
  apply run_bind; [apply run_install_handlers, C | intros _].
  apply run_bind; [apply run_start_workers; auto | intros processes].
  apply run_bind; [apply run_print; auto | intros _].
  apply run_bind; [apply run_wait_phase, C | intros _].
  apply run_bind; [apply run_stop_all, C | intros _].
  apply run_print; auto.
Qed.

(** ** Computations that always return *)

Lemma total_ret {A} (a : A) : total (ret a).
Proof. intros s. exists a. reflexivity. Qed.

Lemma total_bind {A B} (c : M A) (k : A -> M B) :
  total c -> (forall a, total (k a)) -> total (bind c k).
Proof.
  intros Hc Hk s. unfold bind.
  destruct (Hc s) as [a Ea]. destruct (c s) as [r s1]. simpl in Ea. subst r.
  apply Hk.
Qed.

Lemma total_emit (e : event) : total (emit e).
Proof. intros s. exists tt. reflexivity. Qed.

Lemma total_event_set : total event_set.
Proof. intros s. exists tt. reflexivity. Qed.

Lemma total_signal_handler : total signal_handler.
Proof.
  apply total_bind; [apply total_emit | intros _; apply total_event_set].
Qed.

Lemma total_repeat_M (n : nat) (c : M unit) : total c -> total (repeat_M n c).
Proof.
  intros Hc. induction n as [|n IH]; simpl.
  - apply total_ret.
  - apply total_bind; auto.
Qed.

Lemma total_deliver : total deliver.
Proof.
  intros s. unfold deliver. destruct (pending s) as [|n rest].
  - exists tt. reflexivity.
  - apply total_repeat_M, total_signal_handler.
Qed.

Lemma total_proc_start (i : nat) (t : float) : total (proc_start i t).
Proof.
  apply total_bind; [apply total_emit | intros _; apply total_deliver].
Qed.

Lemma total_proc_join (i : nat) (t : Z) : total (proc_join i t).
Proof.
  apply total_bind; [apply total_emit | intros _; apply total_deliver].
Qed.

Lemma total_for_each {A} (l : list A) (body : A -> M unit) :
  (forall x, total (body x)) -> total (for_each l body).
Proof.
  intros Hb. induction l as [|x l IH]; simpl.
  - apply total_ret.
  - apply total_bind; auto.
Qed.

Lemma total_print_summary (h : host) (a : args) : total (print_summary h a).
Proof.
  unfold print_summary.
  repeat (apply total_bind; [|intros _]); try apply total_emit.
  destruct (duration_given (duration a)); apply total_emit.
Qed.

Lemma total_install_handlers : total install_handlers.
Proof.
  apply total_bind; [|intros _]; apply total_emit.
Qed.

Lemma total_stop_all (alive : nat -> bool) (processes : list nat) :
  total (stop_all alive processes).
Proof.
  apply total_bind; [apply total_event_set | intros _].
  apply total_for_each. intros p.
  apply total_bind; [apply total_proc_join | intros _].
  destruct (alive p); [apply total_emit | apply total_ret].
Qed.

(** A total computation, run from [s]: its value, its final state, and what
    [run_extends] says about the two states. *)
Lemma run_total {A} (P : event -> Prop) (c : M A) (s : coord) :
  total c -> run_extends P c ->
  exists a s', c s = (Val a, s') /\ extends P s s'.
Proof.
  intros Ht Hr. destruct (Ht s) as [a Ea]. specialize (Hr s).
  destruct (c s) as [r s']. simpl in *. subst r. eauto.
Qed.

(** ** The workers a run launches *)

Lemma launched_app (tr1 tr2 : list event) :
  launched (tr1 ++ tr2) = launched tr1 ++ launched tr2.
Proof. apply flat_map_app. Qed.

Lemma launched_none (tr : list event) :
  Forall not_a_start tr -> launched tr = [].
Proof.
  induction 1 as [|e tr He _ IH]; [reflexivity|].
  change (launched (e :: tr)) with
    (match e with ProcStart i _ => [i] | _ => [] end ++ launched tr).
  rewrite IH. destruct e; try reflexivity. destruct He.
Qed.

Lemma extends_launched (s s' : coord) :
  extends not_a_start s s' -> launched (out s') = launched (out s).
Proof.
  intros (tr & E & F & _). rewrite E, launched_app, (launched_none tr F).
  apply app_nil_r.
Qed.

Lemma proc_start_launched (i : nat) (t : float) (s : coord) :
  exists s', proc_start i t s = (Val tt, s') /\
             launched (out s') = launched (out s) ++ [i].
Proof.
  unfold proc_start, bind. simpl.
  set (s1 := {| stop_event := stop_event s; pending := pending s;
                out := out s ++ [ProcStart i t] |}).
  destruct (run_total not_a_start deliver s1 total_deliver
              (run_deliver _ covers_not_a_start)) as ([] & s' & E & X).
  exists s'. split; [exact E|].
  rewrite (extends_launched _ _ X). unfold s1. simpl.
  rewrite launched_app. reflexivity.
Qed.

Lemma start_loop_launched (t : float) (l : list nat) (s : coord) :
  exists s', for_each l (fun i => proc_start i t) s = (Val tt, s') /\
             launched (out s') = launched (out s) ++ l.
Proof.
  revert s. induction l as [|i l IH]; intros s; simpl.
  - exists s. rewrite app_nil_r. split; reflexivity.
  - unfold bind.
    destruct (proc_start_launched i t s) as (s1 & E1 & L1). rewrite E1.
    destruct (IH s1) as (s2 & E2 & L2). exists s2. split; [exact E2|].
    rewrite L2, L1, <- app_assoc. reflexivity.
Qed.

Lemma start_workers_launched (h : host) (a : args) (s : coord) :
  exists s', start_workers h a s = (Val (py_range (num_cores h a)), s') /\
             launched (out s')
             = launched (out s) ++ py_range (num_cores h a).
Proof.
  unfold start_workers, bind.
  destruct (start_loop_launched (percentage a) (py_range (num_cores h a)) s)
    as (s' & E & L).
  rewrite E. exists s'. split; [reflexivity | exact L].
Qed.

(** ** The shutdown loop *)

Lemma drain_loop_joins (alive : nat -> bool) (l : list nat) (s : coord) :
  exists tr,
    out (snd (for_each l (fun p =>
                 proc_join p 2 ;;
                 if alive p then proc_terminate p else ret tt) s))
    = out s ++ tr /\
    forall i, In i l ->
      In (ProcJoin i 2) tr /\ (alive i = true -> In (ProcTerminate i) tr).
Proof.
  revert s. induction l as [|p l IH]; intros s.
  - exists []. simpl. rewrite app_nil_r. split; [reflexivity | intros i []].
  - cbn [for_each]. unfold bind at 1.
    set (body := proc_join p 2 ;;
                 (if alive p then proc_terminate p else ret tt)).
    assert (Hbody : exists s1 tr1,
               body s = (Val tt, s1) /\ out s1 = out s ++ tr1 /\
               In (ProcJoin p 2) tr1 /\
               (alive p = true -> In (ProcTerminate p) tr1)).
    { unfold body, bind, proc_join. unfold bind. simpl.
      set (s0 := {| stop_event := stop_event s; pending := pending s;
                    out := out s ++ [ProcJoin p 2] |}).
      destruct (run_total (fun _ => True) deliver s0 total_deliver
                  (run_deliver _ covers_true))
        as ([] & s1 & E & (tr & Eo & _)).
      rewrite E. unfold s0 in Eo. simpl in Eo.
      destruct (alive p) eqn:Ea.
      - eexists. exists (ProcJoin p 2 :: tr ++ [ProcTerminate p]).
        split; [reflexivity|]. simpl. rewrite Eo.
        split; [rewrite <- !app_assoc; reflexivity|].
        split; [left; reflexivity|].
        intros _. right. apply in_or_app. right. left. reflexivity.
      - exists s1, (ProcJoin p 2 :: tr).
        split; [reflexivity|]. rewrite Eo.
        split; [rewrite <- app_assoc; reflexivity|].
        split; [left; reflexivity | discriminate]. }
    destruct Hbody as (s1 & tr1 & E1 & O1 & J1 & T1). rewrite E1.
    destruct (IH s1) as (tr2 & O2 & H2).
    exists (tr1 ++ tr2). split.
    + rewrite O2, O1, app_assoc. reflexivity.
    + intros i [<-|Hi].
      * split; [apply in_or_app; left; exact J1|].
        intros Ha. apply in_or_app. left. auto.
      * destruct (H2 i Hi) as [J2 T2].
        split; [apply in_or_app; right; exact J2|].
        intros Ha. apply in_or_app. right. auto.
Qed.

Lemma stop_all_joins (alive : nat -> bool) (l : list nat) (s : coord) :
  exists s' tr,
    stop_all alive l s = (Val tt, s') /\
    out s' = out s ++ tr /\
    Forall not_stopped_line tr /\
    forall i, In i l ->
      In (ProcJoin i 2) tr /\ (alive i = true -> In (ProcTerminate i) tr).
Proof.
  destruct (run_total not_stopped_line (stop_all alive l) s
              (total_stop_all alive l)
              (run_stop_all _ covers_not_stopped_line alive l))
    as ([] & s' & E & (tr & Eo & F & _)).
  exists s', tr. split; [exact E|]. split; [exact Eo|]. split; [exact F|].
  set (s0 := {| stop_event := true; pending := pending s;
                out := out s ++ [EventSet] |}).
  destruct (drain_loop_joins alive l s0) as (tr2 & O2 & H2).
  change (for_each l _ s0) with (stop_all alive l s) in O2.
  rewrite E in O2. simpl in O2.
  rewrite Eo, <- app_assoc in O2. apply app_inv_head in O2. subst tr.
  intros i Hi. destruct (H2 i Hi) as [J T].
  split; [right; exact J | intros Ha; right; auto].
Qed.

(** ** The waiting block *)

Lemma poll_halts (h : host) (rounds : nat) (s : coord) (o : outcome) :
  fst (poll h rounds s) = Halt o ->
  o = Uncaught \/
  (o = Waiting /\ stop_event (snd (poll h rounds s)) = false).
Proof.
  revert s. induction rounds as [|n IH]; intros s; simpl.
  - destruct (stop_event s) eqn:Ef; simpl; [discriminate|].
    intros [= <-]. right. split; [reflexivity | exact Ef].
  - destruct (stop_event s) eqn:Ef; simpl; [discriminate|].
    unfold bind, time_sleep.
    destruct (sleep_raises h F64.half).
    + simpl. intros [= <-]. left. reflexivity.
    + unfold bind. simpl.
      set (s0 := {| stop_event := stop_event s; pending := pending s;
                    out := out s ++ [TimeSleep F64.half] |}).
      destruct (total_deliver s0) as [[] Ed].
      destruct (deliver s0) as [r s1]. simpl in Ed. subst r.
      apply IH.
Qed.

Lemma wait_phase_halts (h : host) (a : args) (s : coord) (o : outcome) :
  fst (wait_phase h a s) = Halt o ->
  o = Uncaught \/
  (o = Waiting /\ stop_event (snd (wait_phase h a s)) = false).
Proof.
  unfold wait_phase. destruct (duration_given (duration a)) as [d|].
  - unfold bind, time_sleep. destruct (sleep_raises h d).
    + simpl. intros [= <-]. left. reflexivity.
    + unfold bind. simpl.
      set (s0 := {| stop_event := stop_event s; pending := pending s;
                    out := out s ++ [TimeSleep d] |}).
      destruct (total_deliver s0) as [[] Ed].
      destruct (deliver s0) as [r s1]. simpl in Ed. subst r.
      simpl. discriminate.
  - apply poll_halts.
Qed.

(** ** The coordinator's run, block by block *)

Lemma covers_startup :
  covers (fun e => not_stopped_line e /\ not_a_start e).
Proof.
  pose proof covers_not_stopped_line as (A1 & A2 & A3 & A4 & A5 & A6 & A7).
  pose proof covers_not_a_start as (B1 & B2 & B3 & B4 & B5 & B6 & B7).
  repeat split; auto.
Qed.

(** With a valid percentage the run gets through the startup blocks: it
    reaches the waiting block in a state [s'] whose log extends the initial
    one without the final line and with exactly the workers of
    [range(num_cores)] launched. *)
Lemma main_body_startup (h : host) (a : args) (alive : nat -> bool)
    (s : coord) :
  percentage_invalid (percentage a) = false ->
  exists s',
    extends not_stopped_line s s' /\
    launched (out s') = launched (out s) ++ py_range (num_cores h a) /\
    main_body h a alive s
    = (wait_phase h a ;;
       stop_all alive (py_range (num_cores h a)) ;;
       print stopped_line) s'.
Proof.
  intros Hv. unfold main_body, validate_percentage. rewrite Hv.
  unfold bind at 1. cbn [ret].
  set (Q := fun e => not_stopped_line e /\ not_a_start e).
  assert (HQ1 : forall e, Q e -> not_stopped_line e) by (intros e [H _]; exact H).
  assert (HQ2 : forall e, Q e -> not_a_start e) by (intros e [_ H]; exact H).
  (* the summary *)
  unfold bind at 1.
  destruct (run_total Q (print_summary h a) s (total_print_summary h a)
              (run_print_summary Q covers_startup h a))
    as ([] & s1 & E1 & X1).
  rewrite E1.
  (* the handlers *)
  unfold bind at 1.
  destruct (run_total Q install_handlers s1 total_install_handlers
              (run_install_handlers Q covers_startup))
    as ([] & s2 & E2 & X2).
  rewrite E2.
  (* the workers *)
  unfold bind at 1.
  destruct (start_workers_launched h a s2) as (s3 & E3 & L3).
  pose proof (run_start_workers not_stopped_line covers_not_stopped_line h a)
    as X3.
  assert (X3' : forall i t, not_stopped_line (ProcStart i t))
    by (intros; discriminate).
  specialize (X3 X3' s2). rewrite E3 in X3 |- *. simpl in X3.
  (* the line that says so *)
  unfold bind at 1. unfold print at 1, emit at 1.
  set (s4 := {| stop_event := stop_event s3; pending := pending s3;
                out := out s3 ++ _ |}).
  exists s4. split; [|split; [|reflexivity]].
  - eapply extends_trans; [eapply extends_weaken; [exact HQ1 | exact X1]|].
    eapply extends_trans; [eapply extends_weaken; [exact HQ1 | exact X2]|].
    eapply extends_trans; [exact X3|].
    apply (run_print not_stopped_line). discriminate.
  - unfold s4. simpl. rewrite launched_app. simpl. rewrite app_nil_r.
    rewrite L3.
    rewrite (extends_launched _ _ (extends_weaken _ _ _ _ HQ2 X2)).
    rewrite (extends_launched _ _ (extends_weaken _ _ _ _ HQ2 X1)).
    reflexivity.
Qed.

(** After the startup blocks no process is started any more. *)
Lemma main_body_tail_no_start (h : host) (a : args) (alive : nat -> bool)
    (l : list nat) :
  run_extends not_a_start
    (wait_phase h a ;; stop_all alive l ;; print stopped_line).
Proof.
  apply run_bind; [apply run_wait_phase, covers_not_a_start | intros _].
  apply run_bind; [apply run_stop_all, covers_not_a_start | intros _].
  apply run_print. exact I.
Qed.

Lemma main_launched (h : host) (a : args) (w : world) :
  percentage_invalid (percentage a) = false ->
  launched (fst (main h a w)) = py_range (num_cores h a).
Proof.
  intros Hv. unfold main.
  set (s0 := {| stop_event := false; pending := signals w; out := [] |}).
  destruct (main_body_startup h a (still_alive w) s0 Hv)
    as (s' & _ & L & E).
  rewrite E.
  pose proof (main_body_tail_no_start h a (still_alive w)
                (py_range (num_cores h a)) s') as X.
  apply extends_launched in X. rewrite L in X. simpl in X.
  destruct ((wait_phase h a ;; stop_all (still_alive w)
               (py_range (num_cores h a)) ;; print stopped_line) s')
    as [[v|o] s'']; simpl in *; exact X.
Qed.

Lemma percentage_invalid_out_of_range (p : float) :
  F64.ltb p F64.zero = true \/ F64.ltb F64.hundred p = true ->
  percentage_invalid p = true.
Proof.
  unfold percentage_invalid. intros [H|H]; apply ltb_not_leb in H; rewrite H.
  - reflexivity.
  - rewrite andb_false_r. reflexivity.
Qed.

(** C3. A percentage below 0 or above 100 makes the program print the
    configuration error on standard error and exit with status 1; that is
    the whole run, so no worker is started and nothing else is done. *)
Theorem out_of_range_percentage_is_fatal (h : host) (a : args) (w : world) :
  F64.ltb (percentage a) F64.zero = true \/
  F64.ltb F64.hundred (percentage a) = true ->
  main h a w
  = ([PrintErr [Str "Error: Percentage must be between 0 and 100"]],
     Exited 1) /\
  launched (fst (main h a w)) = [].
Proof.
  intros Hr. apply percentage_invalid_out_of_range in Hr.
  assert (E : main h a w
              = ([PrintErr [Str "Error: Percentage must be between 0 and 100"]],
                 Exited 1)).
  { unfold main, main_body, validate_percentage. rewrite Hr. reflexivity. }
  rewrite E. split; reflexivity.
Qed.

Lemma out_of_range_percentage_is_fatal_witness :
  let h := {| cpu_count := 4; sleep_raises := fun d => negb (F64.leb F64.zero d) |} in
  let a := {| percentage := F64.of_Z 150; cores := Some 2; duration := None |} in
  let w := {| signals := [1%nat]; still_alive := fun _ => false |} in
  (F64.ltb (percentage a) F64.zero = true \/
   F64.ltb F64.hundred (percentage a) = true) /\
  main h a w
  = ([PrintErr [Str "Error: Percentage must be between 0 and 100"]],
     Exited 1) /\
  launched (fst (main h a w)) = [].
Proof.
  intros h a w.
  assert (Hr : F64.ltb (percentage a) F64.zero = true \/
               F64.ltb F64.hundred (percentage a) = true)
    by (right; reflexivity).
  split; [exact Hr|].
  exact (out_of_range_percentage_is_fatal h a w Hr).
Defined.

(** C2, as the code has it.  With a valid percentage, an omitted [--cores]
    or a [--cores] of zero launches exactly as many workers as the host has
    processing units, and an explicit positive value [c] launches exactly
    [c] workers. *)
Theorem workers_launched_by_cores (h : host) (a : args) (w : world) (c : Z) :
  percentage_invalid (percentage a) = false ->
  (cores a = None \/ cores a = Some 0 ->
   num_cores h a = Z.of_nat (cpu_count h) /\
   launched (fst (main h a w)) = seq 0 (cpu_count h) /\
   List.length (launched (fst (main h a w))) = cpu_count h) /\
  (cores a = Some c -> 0 < c ->
   num_cores h a = c /\
   launched (fst (main h a w)) = seq 0 (Z.to_nat c) /\
   Z.of_nat (List.length (launched (fst (main h a w)))) = c).
Proof.
  intros Hv. rewrite (main_launched h a w Hv). unfold py_range.
  split.
  - intros Hc.
    assert (E : num_cores h a = Z.of_nat (cpu_count h)).
    { unfold num_cores. destruct Hc as [-> | ->]; reflexivity. }
    rewrite E, Nat2Z.id, length_seq. auto.
  - intros Hc Hpos.
    assert (E : num_cores h a = c).
    { unfold num_cores. rewrite Hc. simpl.
      destruct (Z.eqb_spec c 0); [lia | reflexivity]. }
    rewrite E, length_seq. repeat split. lia.
Qed.

Lemma workers_launched_by_cores_witness :
  let h := {| cpu_count := 4; sleep_raises := fun d => negb (F64.leb F64.zero d) |} in
  let a := {| percentage := F64.of_Z 50; cores := Some 3; duration := None |} in
  let w := {| signals := [0%nat; 1%nat]; still_alive := fun _ => false |} in
  percentage_invalid (percentage a) = false /\
  cores a = Some 3 /\ 0 < 3 /\
  launched (fst (main h a w)) = seq 0 (Z.to_nat 3) /\
  Z.of_nat (List.length (launched (fst (main h a w)))) = 3.
Proof.
  intros h a w.
  split; [reflexivity|]. split; [reflexivity|]. split; [lia|].
  destruct (workers_launched_by_cores h a w 3 eq_refl) as [_ H].
  destruct (H eq_refl ltac:(lia)) as (_ & H1 & H2).
  split; assumption.
Defined.

(** A negative [--cores] is truthy: it is taken as it is, the summary shows
    it, and [range] of it is empty, so no worker is launched although the
    host has four processing units. *)
Lemma negative_cores_launch_nothing :
  let h := {| cpu_count := 4; sleep_raises := fun d => negb (F64.leb F64.zero d) |} in
  let a := {| percentage := F64.of_Z 50; cores := Some (-3); duration := None |} in
  let w := {| signals := [0%nat; 1%nat]; still_alive := fun _ => false |} in
  percentage_invalid (percentage a) = false /\
  num_cores h a = -3 /\
  launched (fst (main h a w)) = [] /\
  ~ cores_default_as_specified h a w.
Proof.
  intros h a w.
  split; [reflexivity|]. split; [reflexivity|]. split; [reflexivity|].
  intros H.
  assert (Hc : cores a = None \/ exists c, cores a = Some c /\ c <= 0).
  { right. exists (-3). split; [reflexivity | lia]. }
  specialize (H Hc). vm_compute in H. discriminate H.
Qed.

(** ** The stop signal *)

Lemma stop_step_extends (op : stop_op) (s : coord) :
  extends (fun _ => True) s (stop_step op s).
Proof.
  destruct op; simpl; unfold state_after.
  - apply extends_refl.
  - apply run_is_set.
  - apply run_event_set. exact I.
  - apply run_signal_handler, covers_true.
Qed.

Lemma stop_run_extends (ops : list stop_op) (s : coord) :
  extends (fun _ => True) s (stop_run ops s).
Proof.
  revert s. induction ops as [|op ops IH]; intros s; simpl.
  - apply extends_refl.
  - eapply extends_trans; [apply stop_step_extends | apply IH].
Qed.

Lemma stop_run_app (ops1 ops2 : list stop_op) (s : coord) :
  stop_run (ops1 ++ ops2) s = stop_run ops2 (stop_run ops1 s).
Proof. apply fold_left_app. Qed.

(** C6. The stop signal is monotonic.  Take any interleaving [ops1] of the
    operations that workers, the coordinator and the signal handler perform
    on the flag, and suppose the flag is set after it.  Then it is still set
    after any continuation [ops2]; a further interrupt or a further [set()]
    of the coordinator leaves the flag as it is (and the pending signals
    too); and the whole of [main], run from there, ends with the flag
    set. *)
Theorem stop_signal_is_monotonic (ops1 ops2 : list stop_op) (s : coord)
    (h : host) (a : args) (alive : nat -> bool) :
  stop_event (stop_run ops1 s) = true ->
  stop_event (stop_run (ops1 ++ ops2) s) = true /\
  stop_event (stop_step Interrupt (stop_run ops1 s))
  = stop_event (stop_run ops1 s) /\
  stop_event (stop_step CoordSet (stop_run ops1 s))
  = stop_event (stop_run ops1 s) /\
  pending (stop_step Interrupt (stop_run ops1 s))
  = pending (stop_run ops1 s) /\
  stop_event (state_after (main_body h a alive) (stop_run ops1 s)) = true.
Proof.
  intros Hset. rewrite stop_run_app.
  set (s1 := stop_run ops1 s) in *.
  split.
  { destruct (stop_run_extends ops2 s1) as (_ & _ & _ & Hm & _). auto. }
  rewrite Hset.
  split; [reflexivity|]. split; [reflexivity|]. split; [reflexivity|].
  destruct (run_main_body h a alive s1) as (_ & _ & _ & Hm & _). auto.
Qed.

Lemma stop_signal_is_monotonic_witness :
  let s := {| stop_event := false; pending := [2%nat]; out := [] |} in
  let h := {| cpu_count := 2; sleep_raises := fun d => negb (F64.leb F64.zero d) |} in
  let a := {| percentage := F64.of_Z 50; cores := None; duration := None |} in
  let ops1 := [WorkerCheck 0; Interrupt; WorkerCheck 1] in
  let ops2 := [CoordCheck; Interrupt; CoordSet; WorkerCheck 0] in
  stop_event (stop_run ops1 s) = true /\
  stop_event (stop_run (ops1 ++ ops2) s) = true /\
  stop_event (stop_step Interrupt (stop_run ops1 s))
  = stop_event (stop_run ops1 s) /\
  stop_event (stop_step CoordSet (stop_run ops1 s))
  = stop_event (stop_run ops1 s) /\
  pending (stop_step Interrupt (stop_run ops1 s))
  = pending (stop_run ops1 s) /\
  stop_event (state_after (main_body h a (fun _ => false))
                (stop_run ops1 s)) = true.
Proof.
  intros s h a ops1 ops2.
  split; [reflexivity|].
  apply (stop_signal_is_monotonic ops1 ops2 s h a (fun _ => false)).
  reflexivity.
Defined.

(** ** A run in which no signal arrives *)

Lemma quiet_ret {A} (a : A) : keeps_quiet (ret a).
Proof. intros s H. exact H. Qed.

Lemma quiet_bind {A B} (c : M A) (k : A -> M B) :
  keeps_quiet c -> (forall a, keeps_quiet (k a)) -> keeps_quiet (bind c k).
Proof.
  intros Hc Hk s Hs. unfold bind. specialize (Hc s Hs).
  destruct (c s) as [[a|o] s1]; simpl in *; [apply Hk|]; exact Hc.
Qed.

Lemma quiet_emit (e : event) : keeps_quiet (emit e).
Proof. intros s H. exact H. Qed.

Lemma quiet_deliver : keeps_quiet deliver.
Proof.
  intros s [Hf Hp]. unfold deliver.
  destruct (pending s) as [|n rest] eqn:E.
  - split; [exact Hf | simpl; rewrite E; constructor].
  - inversion Hp as [|? ? Hn Hrest]; subst. simpl.
    split; [exact Hf | exact Hrest].
Qed.

Lemma quiet_for_each {A} (l : list A) (body : A -> M unit) :
  (forall x, keeps_quiet (body x)) -> keeps_quiet (for_each l body).
Proof.
  intros Hb. induction l as [|x l IH]; simpl.
  - apply quiet_ret.
  - apply quiet_bind; auto.
Qed.

Lemma quiet_print_summary (h : host) (a : args) :
  keeps_quiet (print_summary h a).
Proof.
  unfold print_summary.
  repeat (apply quiet_bind; [|intros _]); try apply quiet_emit.
  destruct (duration_given (duration a)); apply quiet_emit.
Qed.

Lemma quiet_start_workers (h : host) (a : args) :
  keeps_quiet (start_workers h a).
Proof.
  apply quiet_bind; [|intros _; apply quiet_ret].
  apply quiet_for_each. intros i.
  apply quiet_bind; [apply quiet_emit | intros _; apply quiet_deliver].
Qed.

Lemma quiet_poll_waits (h : host) (rounds : nat) (s : coord) :
  sleep_raises h F64.half = false ->
  quiet s ->
  fst (poll h rounds s) = Halt Waiting.
Proof.
  intros Hs. revert s. induction rounds as [|n IH]; intros s Hq; simpl.
  - destruct Hq as [-> _]. reflexivity.
  - pose proof Hq as [Hf _]. rewrite Hf.
    unfold bind, time_sleep. rewrite Hs. unfold bind. simpl.
    set (s0 := {| stop_event := stop_event s; pending := pending s;
                  out := out s ++ [TimeSleep F64.half] |}).
    assert (Hq0 : quiet s0) by exact Hq.
    pose proof (quiet_deliver s0 Hq0) as Hq1.
    destruct (total_deliver s0) as [[] Ed].
    destruct (deliver s0) as [r s1]. simpl in Ed, Hq1. subst r.
    apply IH, Hq1.
Qed.

Lemma until_ctrl_c_printed (h : host) (a : args) (s : coord) :
  duration_given (duration a) = None ->
  In (Print until_ctrl_c_line) (out (snd (print_summary h a s))).
Proof.
  intros Hd. unfold print_summary. rewrite Hd. simpl.
  rewrite <- !app_assoc. apply in_or_app. right. simpl. auto.
Qed.

Lemma extends_keeps_log (P : event -> Prop) (s s' : coord) (e : event) :
  extends P s s' -> In e (out s) -> In e (out s').
Proof.
  intros (tr & E & _) Hin. rewrite E. apply in_or_app. left. exact Hin.
Qed.

Lemma main_out_startup (h : host) (a : args) (w : world) :
  percentage_invalid (percentage a) = false ->
  duration_given (duration a) = None ->
  In (Print until_ctrl_c_line) (fst (main h a w)).
Proof.
  intros Hv Hd. unfold main.
  set (s0 := {| stop_event := false; pending := signals w; out := [] |}).
  pose (rest := fun _ : unit =>
    install_handlers ;;
    processes <- start_workers h a ;;
    print [Str "Running on "; Int (num_cores h a);
           Str " cores. Press Ctrl+C to stop."] ;;
    wait_phase h a ;;
    stop_all (still_alive w) processes ;;
    print stopped_line).
  change (main_body h a (still_alive w))
    with (validate_percentage a ;; print_summary h a ;; rest tt).
  unfold validate_percentage. rewrite Hv.
  unfold bind at 1. cbn [ret]. unfold bind at 1.
  pose proof (until_ctrl_c_printed h a s0 Hd) as Hin.
  destruct (total_print_summary h a s0) as [[] E1].
  destruct (print_summary h a s0) as [r s1]. simpl in E1, Hin. subst r.
  assert (X : run_extends (fun _ => True) (rest tt)).
  { unfold rest.
    apply run_bind; [apply run_install_handlers, covers_true | intros _].
    apply run_bind; [apply run_start_workers; [apply covers_true | auto]|].
    intros processes.
    apply run_bind; [apply run_print; exact I | intros _].
    apply run_bind; [apply run_wait_phase, covers_true | intros _].
    apply run_bind; [apply run_stop_all, covers_true | intros _].
    apply run_print; exact I. }
  specialize (X s1). apply extends_keeps_log with (e := Print until_ctrl_c_line) in X;
    [|exact Hin].
  destruct (rest tt s1) as [[v|o] s2]; exact X.
Qed.

Lemma quiet_step {A} (c : M A) (s : coord) :
  total c -> keeps_quiet c -> quiet s ->
  exists a s', c s = (Val a, s') /\ quiet s'.
Proof.
  intros Ht Hk Hq. destruct (Ht s) as [a Ea]. specialize (Hk s Hq).
  destruct (c s) as [r s']. simpl in *. subst r. eauto.
Qed.

Lemma total_start_workers (h : host) (a : args) : total (start_workers h a).
Proof.
  intros s. destruct (start_workers_launched h a s) as (s' & E & _).
  rewrite E. eexists. reflexivity.
Qed.

Lemma quiet_install_handlers : keeps_quiet install_handlers.
Proof.
  apply quiet_bind; [|intros _]; apply quiet_emit.
Qed.

(** Without a duration and without a signal the coordinator waits for
    ever. *)
Lemma main_waits_when_quiet (h : host) (a : args) (w : world) :
  percentage_invalid (percentage a) = false ->
  duration_given (duration a) = None ->
  sleep_raises h F64.half = false ->
  Forall (fun n => n = O) (signals w) ->
  snd (main h a w) = Waiting.
Proof.
  intros Hv Hd Hs Hw. unfold main.
  set (s0 := {| stop_event := false; pending := signals w; out := [] |}).
  assert (Hq0 : quiet s0) by (split; [reflexivity | exact Hw]).
  unfold main_body, validate_percentage. rewrite Hv.
  unfold bind at 1. cbn [ret]. unfold bind at 1.
  destruct (quiet_step (print_summary h a) s0 (total_print_summary h a)
              (quiet_print_summary h a) Hq0) as ([] & s1 & E1 & Hq1).
  rewrite E1. unfold bind at 1.
  destruct (quiet_step install_handlers s1 total_install_handlers
              quiet_install_handlers Hq1) as ([] & s2 & E2 & Hq2).
  rewrite E2. unfold bind at 1.
  destruct (quiet_step (start_workers h a) s2 (total_start_workers h a)
              (quiet_start_workers h a) Hq2) as (ps & s3 & E3 & Hq3).
  rewrite E3. unfold bind at 1. unfold print at 1, emit at 1.
  set (s4 := {| stop_event := stop_event s3; pending := pending s3;
                out := out s3 ++ _ |}).
  assert (Hq4 : quiet s4) by exact Hq3.
  unfold bind at 1. unfold wait_phase. rewrite Hd. unfold wait_for_stop.
  pose proof (quiet_poll_waits h (List.length (pending s4)) s4 Hs Hq4) as Hp.
  destruct (poll h (List.length (pending s4)) s4) as [r s5].
  simpl in Hp. subst r. reflexivity.
Qed.



(** ** Shutdown *)

Lemma extends_from_empty (P : event -> Prop) (s s' : coord) :
  out s = [] -> extends P s s' -> Forall P (out s').
Proof.
  intros E0 (tr & E & F & _). rewrite E, E0. exact F.
Qed.



(** * Binary64 rounding, and the split of the cycle window *)

(** ** Number of binary digits *)

Lemma digits2_pos_size (p : positive) : digits2_pos p = Pos.size p.
Proof. induction p; simpl; congruence. Qed.

Lemma digits2_pos_bounds (p : positive) :
  2 ^ (Zpos (digits2_pos p) - 1) <= Zpos p < 2 ^ Zpos (digits2_pos p).
Proof.
  rewrite digits2_pos_size.
  pose proof (Pos.size_gt p) as Hgt. pose proof (Pos.size_le p) as Hle.
  apply Pos2Z.pos_lt_pos in Hgt. apply Pos2Z.pos_le_pos in Hle.
  rewrite Pos2Z.inj_pow in Hgt, Hle.
  replace (Zpos (Pos.size p)) with (Zpos (Pos.size p) - 1 + 1) in Hle at 1 by lia.
  rewrite Z.pow_add_r in Hle by lia.
  change (Zpos p~0) with (2 * Zpos p) in Hle.
  change (Zpos 2) with 2 in *. lia.
Qed.

Lemma Zdigits2_nonneg (n : Z) : 0 <= n -> 0 <= Zdigits2 n.
Proof. destruct n; simpl; lia. Qed.

Lemma Zdigits2_bounds (n : Z) :
  0 < n -> 2 ^ (Zdigits2 n - 1) <= n < 2 ^ Zdigits2 n.
Proof.
  destruct n as [|p|p]; try lia. intros _. apply digits2_pos_bounds.
Qed.

Lemma Zdigits2_unique (n d : Z) :
  2 ^ (d - 1) <= n < 2 ^ d -> 0 < n -> Zdigits2 n = d.
Proof.
  intros [Hlo Hhi] Hn.
  pose proof (Zdigits2_bounds n Hn) as [Blo Bhi].
  assert (Hd : 0 < d).
  { destruct (Z_lt_le_dec 0 d) as [|Hd0]; [assumption|].
    assert (2 ^ d <= 1).
    { destruct (Z.eq_dec d 0) as [->|]; [simpl; lia|].
      rewrite Z.pow_neg_r by lia. lia. }
    lia. }
  assert (Hdn : 0 < Zdigits2 n) by (destruct n; simpl in *; lia).
  destruct (Z_lt_le_dec (Zdigits2 n) d) as [Hlt|Hge].
  - assert (2 ^ Zdigits2 n <= 2 ^ (d - 1))
      by (apply Z.pow_le_mono_r; lia). lia.
  - destruct (Z_lt_le_dec d (Zdigits2 n)) as [Hlt|Hle]; [|lia].
    assert (2 ^ d <= 2 ^ (Zdigits2 n - 1))
      by (apply Z.pow_le_mono_r; lia). lia.
Qed.

Lemma Zdigits2_le (n d : Z) : 0 <= d -> 0 <= n < 2 ^ d -> Zdigits2 n <= d.
Proof.
  intros Hd [Hn Hhi].
  destruct (Z.eq_dec n 0) as [->|Hn0]; [simpl; lia|].
  pose proof (Zdigits2_bounds n ltac:(lia)) as [Blo _].
  destruct (Z_lt_le_dec d (Zdigits2 n)) as [Hlt|]; [|lia].
  assert (2 ^ d <= 2 ^ (Zdigits2 n - 1))
    by (apply Z.pow_le_mono_r; lia). lia.
Qed.

(** ** Shifting a mantissa to the right *)

Lemma iter_pos_nat {A} (f : A -> A) (p : positive) (x : A) :
  iter_pos f p x = Nat.iter (Pos.to_nat p) f x.
Proof.
  revert x. induction p as [p IH|p IH|]; intros x; cbn [iter_pos].
  - rewrite !IH, Pos2Nat.inj_xI.
    replace (S (2 * Pos.to_nat p))%nat
      with (Pos.to_nat p + (Pos.to_nat p + 1))%nat by lia.
    rewrite !Nat.iter_add. simpl. reflexivity.
  - rewrite !IH, Pos2Nat.inj_xO.
    replace (2 * Pos.to_nat p)%nat
      with (Pos.to_nat p + Pos.to_nat p)%nat by lia.
    rewrite Nat.iter_add. reflexivity.
  - reflexivity.
Qed.

Lemma shr_1_nonneg (m : Z) (r s : bool) :
  0 <= m ->
  shr_1 (Build_shr_record m r s)
  = Build_shr_record (m / 2) (Z.odd m) (r || s).
Proof.
  intros Hm. destruct m as [|p|p]; [reflexivity| |lia].
  destruct p as [p|p|]; simpl shr_1.
  - f_equal. rewrite Pos2Z.inj_xI. rewrite Z.add_comm, Z.mul_comm.
    rewrite Z.div_add by lia. reflexivity.
  - f_equal. rewrite Pos2Z.inj_xO. rewrite Z.mul_comm.
    rewrite Z.div_mul by lia. reflexivity.
  - reflexivity.
Qed.

(** The record after [n + 1] shifts, from any initial record: the mantissa
    is divided by [2 ^ (n + 1)], the round bit tells whether the remainder
    reaches half of that, the sticky bit whether anything was lost below. *)
Lemma shr_iter_S (n : nat) (m0 : Z) (r0 s0 : bool) :
  0 <= m0 ->
  Nat.iter (S n) shr_1 (Build_shr_record m0 r0 s0)
  = Build_shr_record
      (m0 / 2 ^ Z.of_nat (S n))
      (2 ^ Z.of_nat n <=? m0 mod 2 ^ Z.of_nat (S n))
      (negb (m0 mod 2 ^ Z.of_nat n =? 0) || r0 || s0).
Proof.
  intros Hm. induction n as [|n IH].
  - change (Nat.iter 1 shr_1 ?x) with (shr_1 x).
    rewrite shr_1_nonneg by assumption.
    change (2 ^ Z.of_nat 1) with 2. change (2 ^ Z.of_nat 0) with 1.
    rewrite Z.mod_1_r. simpl negb.
    f_equal. rewrite (Zmod_odd m0). destruct (Z.odd m0); reflexivity.
  - change (Nat.iter (S (S n)) shr_1 ?x) with (shr_1 (Nat.iter (S n) shr_1 x)).
    rewrite IH.
    assert (Hp : 0 < 2 ^ Z.of_nat n) by (apply Z.pow_pos_nonneg; lia).
    assert (E1 : 2 ^ Z.of_nat (S n) = 2 ^ Z.of_nat n * 2).
    { rewrite Nat2Z.inj_succ, Z.pow_succ_r by lia. lia. }
    assert (E2 : 2 ^ Z.of_nat (S (S n)) = 2 ^ Z.of_nat (S n) * 2).
    { rewrite (Nat2Z.inj_succ (S n)), Z.pow_succ_r by lia. lia. }
    rewrite shr_1_nonneg by (apply Z.div_pos; lia).
    assert (D : m0 / 2 ^ Z.of_nat (S n) / 2 = m0 / 2 ^ Z.of_nat (S (S n))).
    { rewrite E2, Z.div_div by lia. reflexivity. }
    pose proof (Z.rem_mul_r m0 (2 ^ Z.of_nat (S n)) 2 ltac:(lia) ltac:(lia))
      as R2.
    rewrite <- E2 in R2.
    pose proof (Z.rem_mul_r m0 (2 ^ Z.of_nat n) 2 ltac:(lia) ltac:(lia))
      as R1.
    rewrite <- E1 in R1.
    pose proof (Z.mod_pos_bound m0 (2 ^ Z.of_nat (S n)) ltac:(lia)) as B2.
    pose proof (Z.mod_pos_bound m0 (2 ^ Z.of_nat n) ltac:(lia)) as B1.
    pose proof (Zmod_odd (m0 / 2 ^ Z.of_nat (S n))) as O2.
    pose proof (Z.mod_pos_bound (m0 / 2 ^ Z.of_nat n) 2 ltac:(lia)) as B0.
    rewrite D. f_equal.
    + destruct (Z.odd (m0 / 2 ^ Z.of_nat (S n)));
        symmetry; [apply Z.leb_le | apply Z.leb_gt]; lia.
    + assert (Hb : (m0 / 2 ^ Z.of_nat n) mod 2 = 0 \/
                   (m0 / 2 ^ Z.of_nat n) mod 2 = 1) by lia.
      destruct (Z.leb_spec (2 ^ Z.of_nat n) (m0 mod 2 ^ Z.of_nat (S n)));
      destruct (Z.eqb_spec (m0 mod 2 ^ Z.of_nat n) 0);
      destruct (Z.eqb_spec (m0 mod 2 ^ Z.of_nat (S n)) 0);
      simpl; try reflexivity;
      try (destruct r0, s0; reflexivity);
      exfalso; destruct Hb as [Hb|Hb]; rewrite Hb in R1; lia.
Qed.

Lemma shr_iter_m (n : nat) (m0 : Z) (r0 s0 : bool) :
  0 <= m0 ->
  shr_m (Nat.iter n shr_1 (Build_shr_record m0 r0 s0)) = m0 / 2 ^ Z.of_nat n.
Proof.
  intros Hm. destruct n as [|n].
  - simpl. rewrite Z.div_1_r. reflexivity.
  - rewrite shr_iter_S by assumption. reflexivity.
Qed.

Lemma loc_of_shr_record_of_loc (m : Z) (l : location) :
  loc_of_shr_record (shr_record_of_loc m l) = l.
Proof. destruct l as [|[ | | ]]; reflexivity. Qed.

Lemma shr_record_of_loc_m (m : Z) (l : location) :
  shr_m (shr_record_of_loc m l) = m.
Proof. destruct l as [|[ | | ]]; reflexivity. Qed.

Lemma round_nearest_even_range (m : Z) (l : location) :
  m <= round_nearest_even m l <= m + 1.
Proof.
  destruct l as [|[ | | ]]; simpl; try destruct (Z.even m); lia.
Qed.

(** [shr] by [k] places. *)
Lemma shr_pos (m0 : Z) (r0 s0 : bool) (e k : Z) :
  0 <= m0 -> 0 < k ->
  shr (Build_shr_record m0 r0 s0) e k
  = (Build_shr_record
       (m0 / 2 ^ k)
       (2 ^ (k - 1) <=? m0 mod 2 ^ k)
       (negb (m0 mod 2 ^ (k - 1) =? 0) || r0 || s0),
     e + k).
Proof.
  intros Hm Hk. destruct k as [|p|p]; try lia.
  unfold shr. rewrite iter_pos_nat.
  destruct (Pos2Nat.is_succ p) as [n En]. rewrite En.
  rewrite shr_iter_S by assumption.
  assert (Ep : Zpos p = Z.of_nat (S n)) by (rewrite <- En; lia).
  rewrite Ep. replace (Z.of_nat (S n) - 1) with (Z.of_nat n) by lia.
  reflexivity.
Qed.

Lemma shr_nonpos (mrs : shr_record) (e k : Z) :
  k <= 0 -> shr mrs e k = (mrs, e).
Proof. intros Hk. destruct k; try reflexivity. lia. Qed.

(** The mantissa and the exponent that [shr_fexp] returns. *)
Lemma shr_fexp_m (m e : Z) (l : location) :
  0 <= m ->
  shr_m (fst (shr_fexp 53 1024 m e l)) = m / 2 ^ shift_of m e /\
  snd (shr_fexp 53 1024 m e l) = e + shift_of m e.
Proof.
  intros Hm. unfold shr_fexp, shift_of.
  set (k := fexp 53 1024 (Zdigits2 m + e) - e).
  destruct (Z_lt_le_dec 0 k) as [Hk|Hk].
  - rewrite Z.max_r by lia.
    destruct (shr_record_of_loc m l) as [m' r' s'] eqn:E.
    assert (m' = m) by (rewrite <- (shr_record_of_loc_m m l), E; reflexivity).
    subst m'. rewrite shr_pos by assumption. simpl. split; reflexivity.
  - rewrite Z.max_l by lia. rewrite shr_nonpos by assumption. simpl.
    rewrite shr_record_of_loc_m, Z.div_1_r. split; [reflexivity | lia].
Qed.

(** The first stage of [binary_round_aux]: shift, then round to nearest
    even.  Whatever the location, the result is the quotient or the quotient
    plus one, and it is the quotient when nothing is lost. *)
Lemma stage1_range (m e : Z) (l : location) :
  0 <= m ->
  let mrs := fst (shr_fexp 53 1024 m e l) in
  let m2 := round_nearest_even (shr_m mrs) (loc_of_shr_record mrs) in
  m / 2 ^ shift_of m e <= m2 <= m / 2 ^ shift_of m e + 1 /\
  (l = loc_Exact -> m mod 2 ^ shift_of m e = 0 -> m2 = m / 2 ^ shift_of m e).
Proof.
  intros Hm mrs m2.
  pose proof (shr_fexp_m m e l Hm) as [Em _]. fold mrs in Em.
  split.
  - unfold m2. rewrite <- Em. apply round_nearest_even_range.
  - intros -> Hrem. unfold m2, mrs, shr_fexp. fold (shift_of m e) in *.
    revert Em Hrem. unfold mrs, shr_fexp, shift_of.
    set (k := fexp 53 1024 (Zdigits2 m + e) - e).
    destruct (Z_lt_le_dec 0 k) as [Hk|Hk].
    + rewrite Z.max_r by lia. simpl shr_record_of_loc.
      rewrite shr_pos by assumption. simpl fst. simpl shr_m.
      intros _ Hrem.
      assert (H2 : 0 < 2 ^ (k - 1)) by (apply Z.pow_pos_nonneg; lia).
      assert (E2 : 2 ^ k = 2 ^ (k - 1) * 2).
      { replace k with (k - 1 + 1) at 1 by lia.
        rewrite Z.pow_add_r by lia. reflexivity. }
      pose proof (Z.rem_mul_r m (2 ^ (k - 1)) 2 ltac:(lia) ltac:(lia)) as R.
      rewrite <- E2, Hrem in R.
      pose proof (Z.mod_pos_bound m (2 ^ (k - 1)) ltac:(lia)) as B1.
      pose proof (Z.mod_pos_bound (m / 2 ^ (k - 1)) 2 ltac:(lia)) as B0.
      assert (Hy : m mod 2 ^ (k - 1) = 0) by nia.
      rewrite Hrem, Hy.
      destruct (Z.leb_spec (2 ^ (k - 1)) 0); [lia|]. reflexivity.
    + rewrite Z.max_l by lia. rewrite shr_nonpos by assumption.
      intros _ _. simpl. rewrite Z.div_1_r. reflexivity.
Qed.

(** The first stage from an exact location is [rne]. *)
Lemma stage1_exact (m e : Z) :
  0 <= m -> 0 < shift_of m e ->
  let mrs := fst (shr_fexp 53 1024 m e loc_Exact) in
  round_nearest_even (shr_m mrs) (loc_of_shr_record mrs)
  = rne m (shift_of m e).
Proof.
  intros Hm Hs mrs. unfold mrs, shr_fexp. revert Hs. unfold shift_of.
  set (k := fexp 53 1024 (Zdigits2 m + e) - e). intros Hs.
  assert (Hk : 0 < k) by lia.
  rewrite Z.max_r by lia. simpl shr_record_of_loc.
  rewrite shr_pos by assumption. simpl fst. unfold rne.
  assert (H2 : 0 < 2 ^ (k - 1)) by (apply Z.pow_pos_nonneg; lia).
  assert (E2 : 2 ^ k = 2 ^ (k - 1) * 2).
  { replace k with (k - 1 + 1) at 1 by lia.
    rewrite Z.pow_add_r by lia. reflexivity. }
  pose proof (Z.rem_mul_r m (2 ^ (k - 1)) 2 ltac:(lia) ltac:(lia)) as R.
  rewrite <- E2 in R.
  pose proof (Z.mod_pos_bound m (2 ^ (k - 1)) ltac:(lia)) as B1.
  pose proof (Z.mod_pos_bound (m / 2 ^ (k - 1)) 2 ltac:(lia)) as B0.
  assert (Hb : (m / 2 ^ (k - 1)) mod 2 = 0 \/ (m / 2 ^ (k - 1)) mod 2 = 1)
    by lia.
  cbv zeta. simpl shr_m. unfold loc_of_shr_record.
  rewrite !orb_false_r.
  destruct (Z.leb_spec (2 ^ (k - 1)) (m mod 2 ^ k));
  destruct (Z.eqb_spec (m mod 2 ^ (k - 1)) 0);
  destruct (Z.ltb_spec (m mod 2 ^ k) (2 ^ (k - 1)));
  destruct (Z.ltb_spec (2 ^ (k - 1)) (m mod 2 ^ k));
  simpl; try reflexivity;
  exfalso; destruct Hb as [Hb|Hb]; rewrite Hb in R; lia.
Qed.

Lemma fexp_eq (e : Z) : fexp 53 1024 e = Z.max (e - 53) (-1074).
Proof. reflexivity. Qed.

Lemma shift_of_nonneg (m e : Z) : 0 <= shift_of m e.
Proof. unfold shift_of. lia. Qed.

Lemma pow2_pos (k : Z) : 0 <= k -> 0 < 2 ^ k.
Proof. intros. apply Z.pow_pos_nonneg; lia. Qed.

Lemma pow2_split (a b : Z) : 0 <= a -> 0 <= b -> 2 ^ (a + b) = 2 ^ a * 2 ^ b.
Proof. intros. apply Z.pow_add_r; assumption. Qed.

(** [binary_round_aux], stage by stage. *)
Lemma binary_round_aux_eq (sx : bool) (mx ex : Z) (lx : location) :
  0 <= mx ->
  let mrs := fst (shr_fexp 53 1024 mx ex lx) in
  let m2 := round_nearest_even (shr_m mrs) (loc_of_shr_record mrs) in
  let e1 := ex + shift_of mx ex in
  binary_round_aux 53 1024 sx mx ex lx
  = match m2 / 2 ^ shift_of m2 e1 with
    | Z0 => S754_zero sx
    | Zpos m =>
        if e1 + shift_of m2 e1 <=? 971
        then S754_finite sx m (e1 + shift_of m2 e1)
        else S754_infinity sx
    | Zneg _ => S754_nan
    end.
Proof.
  intros Hm. cbv zeta. unfold binary_round_aux.
  pose proof (shr_fexp_m mx ex lx Hm) as [_ Ee].
  pose proof (stage1_range mx ex lx Hm) as [[Hlo _] _].
  assert (Hq : 0 <= mx / 2 ^ shift_of mx ex).
  { apply Z.div_pos; [lia | apply pow2_pos, shift_of_nonneg]. }
  destruct (shr_fexp 53 1024 mx ex lx) as [mrs' e'].
  simpl fst in *. simpl snd in *. subst e'.
  set (m2' := round_nearest_even (shr_m mrs') (loc_of_shr_record mrs')) in *.
  assert (Hm2' : 0 <= m2') by lia.
  pose proof (shr_fexp_m m2' (ex + shift_of mx ex) loc_Exact Hm2')
    as [Em2 Ee2].
  destruct (shr_fexp 53 1024 m2' (ex + shift_of mx ex) loc_Exact)
    as [mrs'' e''].
  simpl in Em2, Ee2. rewrite Em2, Ee2. reflexivity.
Qed.

(** A canonical mantissa goes through unchanged. *)
Lemma binary_round_aux_canonical (sx : bool) (mx : positive) (ex : Z) :
  fexp 53 1024 (Zdigits2 (Zpos mx) + ex) = ex -> ex <= 971 ->
  binary_round_aux 53 1024 sx (Zpos mx) ex loc_Exact = S754_finite sx mx ex.
Proof.
  intros Hc He.
  assert (Hs : shift_of (Zpos mx) ex = 0) by (unfold shift_of; lia).
  rewrite binary_round_aux_eq by lia.
  pose proof (stage1_range (Zpos mx) ex loc_Exact ltac:(lia)) as [_ Hex].
  cbv zeta in Hex. rewrite Hs in Hex |- *.
  rewrite Hex by (try reflexivity; apply Z.mod_1_r).
  rewrite Z.div_1_r, Z.add_0_r, Hs, Z.div_1_r, Z.add_0_r.
  destruct (Z.leb_spec ex 971); [reflexivity | lia].
Qed.

(** An upper bound that the format can represent is respected by the
    rounding: if the value to round is at most [B * 2 ^ eB], and exactly
    located when it equals it, the result is a zero or a finite number with
    a mantissa below [2 ^ 53] whose value is at most [B * 2 ^ eB]. *)
Lemma binary_round_aux_bound (sx : bool) (mx ex : Z) (lx : location)
    (B eB : Z) :
  0 <= mx -> 0 < B < 2 ^ 53 -> ex <= eB ->
  fexp 53 1024 (Zdigits2 mx + ex) <= eB -> eB <= 971 ->
  (mx < B * 2 ^ (eB - ex) \/ (mx = B * 2 ^ (eB - ex) /\ lx = loc_Exact)) ->
  binary_round_aux 53 1024 sx mx ex lx = S754_zero sx \/
  exists m e,
    binary_round_aux 53 1024 sx mx ex lx = S754_finite sx m e /\
    -1074 <= e <= eB /\
    Zpos m < 2 ^ 53 /\
    Zpos m <= B * 2 ^ (eB - e).
Proof.
  intros Hm HB Hex Hf HeB Hval.
  rewrite binary_round_aux_eq by assumption. cbv zeta.
  pose proof (stage1_range mx ex lx Hm) as [[Hlo Hhi] Hexact].
  set (m2 := round_nearest_even _ _) in *.
  set (k1 := shift_of mx ex) in *.
  assert (Hk1 : 0 <= k1) by apply shift_of_nonneg.
  set (e1 := ex + k1).
  assert (He1 : e1 <= eB /\ -1074 <= e1).
  { unfold e1, k1, shift_of. rewrite fexp_eq in *. lia. }
  assert (P1 : 0 < 2 ^ k1) by (apply pow2_pos; lia).
  assert (PB : 0 < 2 ^ (eB - e1)) by (apply pow2_pos; lia).
  assert (Esplit : 2 ^ (eB - ex) = 2 ^ (eB - e1) * 2 ^ k1).
  { rewrite <- pow2_split by lia. f_equal. unfold e1. lia. }
  set (Y1 := B * 2 ^ (eB - e1)).
  assert (Hmx : mx <= Y1 * 2 ^ k1) by (unfold Y1; nia).
  pose proof (Z.div_mod mx (2 ^ k1) ltac:(lia)) as Hdm.
  pose proof (Z.mod_pos_bound mx (2 ^ k1) ltac:(lia)) as Hmb.
  assert (Hq1 : mx / 2 ^ k1 <= Y1) by nia.
  assert (Hm2 : 0 <= m2 <= Y1).
  { assert (0 <= mx / 2 ^ k1) by (apply Z.div_pos; lia).
    split; [lia|].
    destruct (Z_lt_le_dec (mx / 2 ^ k1) Y1) as [Hlt|Hge]; [lia|].
    assert (Hq : mx / 2 ^ k1 = Y1) by lia.
    assert (Hmx' : mx = Y1 * 2 ^ k1) by nia.
    destruct Hval as [Hlt|[_ Hl]]; [unfold Y1 in *; nia|].
    rewrite Hexact; [lia | exact Hl |].
    rewrite Hmx'. apply Z.mod_mul. lia. }
  set (k2 := shift_of m2 e1).
  assert (Hk2 : 0 <= k2) by apply shift_of_nonneg.
  assert (P2 : 0 < 2 ^ k2) by (apply pow2_pos; lia).
  assert (HY1 : Y1 < 2 ^ (53 + (eB - e1))).
  { rewrite pow2_split by lia. unfold Y1. nia. }
  assert (Hd2 : Zdigits2 m2 <= 53 + (eB - e1)).
  { apply Zdigits2_le; lia. }
  assert (He2 : e1 + k2 <= eB /\ -1074 <= e1 + k2).
  { unfold k2, shift_of. rewrite fexp_eq. lia. }
  assert (Hd2' : Zdigits2 m2 <= 53 + k2).
  { unfold k2, shift_of. rewrite fexp_eq. lia. }
  assert (Hm3 : 0 <= m2 / 2 ^ k2) by (apply Z.div_pos; lia).
  assert (Hm3hi : m2 / 2 ^ k2 < 2 ^ 53).
  { apply Z.div_lt_upper_bound; [lia|].
    destruct (Z.eq_dec m2 0) as [->|Hne].
    - assert (0 < 2 ^ 53) by (apply pow2_pos; lia). lia.
    - pose proof (Zdigits2_bounds m2 ltac:(lia)) as [_ Bhi].
      assert (2 ^ Zdigits2 m2 <= 2 ^ (53 + k2))
        by (apply Z.pow_le_mono_r; lia).
      rewrite pow2_split in H by lia. lia. }
  assert (Hm3B : m2 / 2 ^ k2 <= B * 2 ^ (eB - (e1 + k2))).
  { assert (0 < 2 ^ (eB - (e1 + k2))) by (apply pow2_pos; lia).
    assert (E : 2 ^ (eB - e1) = 2 ^ (eB - (e1 + k2)) * 2 ^ k2).
    { rewrite <- pow2_split by lia. f_equal. lia. }
    apply Z.div_le_upper_bound; [lia|].
    unfold Y1 in Hm2. rewrite E in Hm2. nia. }
  destruct (m2 / 2 ^ k2) as [|m3|m3] eqn:E3; [left; reflexivity | | lia].
  right. exists m3, (e1 + k2).
  destruct (Z.leb_spec (e1 + k2) 971); [|lia].
  repeat split; try lia.
Qed.

(** ** Rounding to nearest even, arithmetically *)

Lemma rne_range (m k : Z) : m / 2 ^ k <= rne m k <= m / 2 ^ k + 1.
Proof.
  unfold rne.
  destruct (m mod 2 ^ k <? 2 ^ (k - 1)); [lia|].
  destruct (2 ^ (k - 1) <? m mod 2 ^ k); [lia|].
  destruct (Z.even (m / 2 ^ k)); lia.
Qed.

(** The rounding error is at most half a unit of the last place kept. *)
Lemma rne_error (m k : Z) :
  0 < k ->
  - 2 ^ (k - 1) <= rne m k * 2 ^ k - m <= 2 ^ (k - 1).
Proof.
  intros Hk.
  assert (H2 : 0 < 2 ^ (k - 1)) by (apply pow2_pos; lia).
  assert (E2 : 2 ^ k = 2 ^ (k - 1) * 2).
  { replace k with (k - 1 + 1) at 1 by lia. apply pow2_split; lia. }
  pose proof (Z.div_mod m (2 ^ k) ltac:(lia)) as Hdm.
  pose proof (Z.mod_pos_bound m (2 ^ k) ltac:(lia)) as Hmb.
  unfold rne.
  destruct (Z.ltb_spec (m mod 2 ^ k) (2 ^ (k - 1))); [nia|].
  destruct (Z.ltb_spec (2 ^ (k - 1)) (m mod 2 ^ k)); [nia|].
  destruct (Z.even (m / 2 ^ k)); nia.
Qed.

(** Within half a unit of an even multiple, the rounding gives it back. *)
Lemma rne_center (Q k delta : Z) :
  0 < k -> Z.even Q = true ->
  - 2 ^ (k - 1) <= delta <= 2 ^ (k - 1) ->
  rne (Q * 2 ^ k + delta) k = Q.
Proof.
  intros Hk Heven Hd.
  assert (H2 : 0 < 2 ^ (k - 1)) by (apply pow2_pos; lia).
  assert (E2 : 2 ^ k = 2 ^ (k - 1) * 2).
  { replace k with (k - 1 + 1) at 1 by lia. apply pow2_split; lia. }
  unfold rne.
  destruct (Z_lt_le_dec delta 0) as [Hneg|Hpos].
  - assert (Eq : (Q * 2 ^ k + delta) / 2 ^ k = Q - 1).
    { symmetry. apply (Z.div_unique _ _ _ (2 ^ k + delta)); lia. }
    assert (Er : (Q * 2 ^ k + delta) mod 2 ^ k = 2 ^ k + delta).
    { symmetry. apply (Z.mod_unique _ _ (Q - 1)); lia. }
    rewrite Eq, Er.
    destruct (Z.ltb_spec (2 ^ k + delta) (2 ^ (k - 1))); [lia|].
    destruct (Z.ltb_spec (2 ^ (k - 1)) (2 ^ k + delta)); [lia|].
    replace (Q - 1) with (Z.pred Q) by lia.
    rewrite Z.even_pred, <- Z.negb_even, Heven. simpl. lia.
  - assert (Eq : (Q * 2 ^ k + delta) / 2 ^ k = Q).
    { symmetry. apply (Z.div_unique _ _ _ delta); lia. }
    assert (Er : (Q * 2 ^ k + delta) mod 2 ^ k = delta).
    { symmetry. apply (Z.mod_unique _ _ Q); lia. }
    rewrite Eq, Er, Heven.
    destruct (Z.ltb_spec delta (2 ^ (k - 1))); [reflexivity|].
    destruct (Z.ltb_spec (2 ^ (k - 1)) delta); [lia | reflexivity].
Qed.

(** ** Rounding a long mantissa in the normal range *)

Lemma binary_round_aux_normal (sx : bool) (mx ex : Z) :
  0 < mx -> 53 < Zdigits2 mx ->
  -1074 <= ex + Zdigits2 mx - 53 -> ex + Zdigits2 mx - 52 <= 971 ->
  binary_round_aux 53 1024 sx mx ex loc_Exact
  = if rne mx (Zdigits2 mx - 53) <? 2 ^ 53
    then S754_finite sx (Z.to_pos (rne mx (Zdigits2 mx - 53)))
           (ex + Zdigits2 mx - 53)
    else S754_finite sx 4503599627370496 (ex + Zdigits2 mx - 52).
Proof.
  intros Hm Hd Hlo Hhi.
  set (d := Zdigits2 mx) in *. set (k := d - 53).
  assert (Hs : shift_of mx ex = k).
  { unfold shift_of. rewrite fexp_eq. fold d. lia. }
  rewrite binary_round_aux_eq by lia. cbv zeta.
  rewrite stage1_exact by (rewrite ?Hs; lia). rewrite Hs.
  set (m2 := rne mx k).
  pose proof (Zdigits2_bounds mx Hm) as [Blo Bhi]. fold d in Blo, Bhi.
  assert (Pk : 0 < 2 ^ k) by (apply pow2_pos; lia).
  assert (E1 : 2 ^ (d - 1) = 2 ^ 52 * 2 ^ k).
  { rewrite <- pow2_split by lia. f_equal. lia. }
  assert (E2 : 2 ^ d = 2 ^ 53 * 2 ^ k).
  { rewrite <- pow2_split by lia. f_equal. lia. }
  assert (Hq : 2 ^ 52 <= mx / 2 ^ k < 2 ^ 53).
  { split.
    - apply Z.div_le_lower_bound; lia.
    - apply Z.div_lt_upper_bound; lia. }
  pose proof (rne_range mx k) as Hr. fold m2 in Hr.
  destruct (Z.ltb_spec m2 (2 ^ 53)) as [Hlt|Hge].
  - assert (Ed : Zdigits2 m2 = 53).
    { apply Zdigits2_unique; [|lia]. change (53 - 1) with 52. lia. }
    assert (Hs2 : shift_of m2 (ex + k) = 0).
    { unfold shift_of. rewrite fexp_eq, Ed. unfold k. lia. }
    rewrite Hs2, Z.div_1_r, Z.add_0_r.
    destruct m2 as [|p|p] eqn:Em2; try lia.
    destruct (Z.leb_spec (ex + k) 971); [|unfold k in *; lia].
    simpl Z.to_pos. f_equal. unfold k. lia.
  - assert (Em2 : m2 = 2 ^ 53) by lia.
    assert (Ed : Zdigits2 m2 = 54) by (rewrite Em2; reflexivity).
    assert (Hs2 : shift_of m2 (ex + k) = 1).
    { unfold shift_of. rewrite fexp_eq, Ed. unfold k. lia. }
    rewrite Hs2, Em2.
    change (2 ^ 53 / 2 ^ 1) with 4503599627370496.
    destruct (Z.leb_spec (ex + k + 1) 971); [|unfold k in *; lia].
    f_equal. unfold k. lia.
Qed.

(** ** Alignment and normalisation *)

Lemma pos_iter_xO (m d : positive) :
  Zpos (Pos.iter xO m d) = Zpos m * 2 ^ Zpos d.
Proof.
  revert m. induction d as [|d IH] using Pos.peano_ind; intros m.
  - simpl. lia.
  - rewrite Pos.iter_succ, Pos2Z.inj_succ, Z.pow_succ_r by lia.
    rewrite Pos2Z.inj_xO, IH. lia.
Qed.

Lemma shl_align_le (mx : positive) (ex ex' : Z) :
  ex' <= ex ->
  Zpos (fst (shl_align mx ex ex')) = Zpos mx * 2 ^ (ex - ex') /\
  snd (shl_align mx ex ex') = ex'.
Proof.
  intros Hle. unfold shl_align.
  destruct (ex' - ex) as [|d|d] eqn:E; try lia; simpl.
  - replace (ex - ex') with 0 by lia. simpl. lia.
  - rewrite pos_iter_xO. replace (ex - ex') with (Zpos d) by lia.
    split; reflexivity.
Qed.

Lemma shl_align_ge (mx : positive) (ex ex' : Z) :
  ex <= ex' -> shl_align mx ex ex' = (mx, ex).
Proof.
  intros Hle. unfold shl_align.
  destruct (ex' - ex) as [|d|d] eqn:E; try lia; reflexivity.
Qed.

Lemma Zdigits2_shift (m j : Z) :
  0 < m -> 0 <= j -> Zdigits2 (m * 2 ^ j) = Zdigits2 m + j.
Proof.
  intros Hm Hj.
  pose proof (Zdigits2_bounds m Hm) as [Blo Bhi].
  assert (Pj : 0 < 2 ^ j) by (apply pow2_pos; lia).
  assert (Hd : 0 < Zdigits2 m) by (destruct m; simpl in *; lia).
  apply Zdigits2_unique; [|nia].
  replace (Zdigits2 m + j - 1) with (Zdigits2 m - 1 + j) by lia.
  rewrite !pow2_split by lia. nia.
Qed.

(** A mantissa of at most 53 digits at an exponent that is not below the
    least one is represented exactly. *)
Lemma binary_round_short (sx : bool) (mx : positive) (ex : Z) :
  Zdigits2 (Zpos mx) <= 53 -> -1074 <= ex -> ex <= 971 ->
  exists m f,
    binary_round 53 1024 sx mx ex = S754_finite sx m f /\
    f = fexp 53 1024 (Zdigits2 (Zpos mx) + ex) /\
    -1074 <= f <= ex /\
    Zpos m = Zpos mx * 2 ^ (ex - f).
Proof.
  intros Hd Hlo Hhi. unfold binary_round.
  change (Zpos (digits2_pos mx)) with (Zdigits2 (Zpos mx)).
  set (f := fexp 53 1024 (Zdigits2 (Zpos mx) + ex)).
  assert (Hf : -1074 <= f <= ex) by (unfold f; rewrite fexp_eq; lia).
  pose proof (shl_align_le mx ex f ltac:(lia)) as [Em Ee].
  destruct (shl_align mx ex f) as [mz ez]. cbn [fst snd] in Em, Ee. subst ez.
  exists mz, f.
  rewrite binary_round_aux_canonical; [repeat split; auto; lia | | lia].
  rewrite Em, Zdigits2_shift by lia.
  replace (Zdigits2 (Zpos mx) + (ex - f) + f) with (Zdigits2 (Zpos mx) + ex)
    by lia.
  reflexivity.
Qed.

(** A longer mantissa is rounded. *)
Lemma binary_round_long (sx : bool) (mx : positive) (ex : Z) :
  53 < Zdigits2 (Zpos mx) -> -1074 <= ex ->
  ex + Zdigits2 (Zpos mx) - 52 <= 971 ->
  binary_round 53 1024 sx mx ex
  = if rne (Zpos mx) (Zdigits2 (Zpos mx) - 53) <? 2 ^ 53
    then S754_finite sx (Z.to_pos (rne (Zpos mx) (Zdigits2 (Zpos mx) - 53)))
           (ex + Zdigits2 (Zpos mx) - 53)
    else S754_finite sx 4503599627370496 (ex + Zdigits2 (Zpos mx) - 52).
Proof.
  intros Hd Hlo Hhi. unfold binary_round.
  change (Zpos (digits2_pos mx)) with (Zdigits2 (Zpos mx)).
  rewrite shl_align_ge by (rewrite fexp_eq; lia).
  apply binary_round_aux_normal; lia.
Qed.

(** ** The identity [b + (0.1 - b) = 0.1] *)

Lemma round_to_tenth (g delta : Z) :
  -1074 <= g <= -56 ->
  - 2 ^ (-56 - g) <= 2 * delta <= 2 ^ (-56 - g) ->
  binary_normalize 53 1024 (7205759403792794 * 2 ^ (-56 - g) + delta) g false
  = F64.tenth.
Proof.
  intros Hg Hd. set (j := -56 - g) in *.
  destruct (Z.eq_dec j 0) as [Hj|Hj].
  - rewrite Hj in *. change (2 ^ 0) with 1 in *.
    assert (delta = 0) by lia. subst delta.
    assert (g = -56) by (unfold j in Hj; lia). subst g.
    reflexivity.
  - assert (Hj1 : 0 < j) by (unfold j in *; lia).
    assert (P1 : 0 < 2 ^ (j - 1)) by (apply pow2_pos; lia).
    assert (E2 : 2 ^ j = 2 ^ (j - 1) * 2).
    { replace j with (j - 1 + 1) at 1 by lia. apply pow2_split; lia. }
    set (N := 7205759403792794 * 2 ^ j + delta).
    assert (HN : 2 ^ (53 + j - 1) <= N < 2 ^ (53 + j)).
    { replace (53 + j - 1) with (52 + j) by lia.
      rewrite !pow2_split by lia.
      change (2 ^ 52) with 4503599627370496.
      change (2 ^ 53) with 9007199254740992. unfold N. lia. }
    assert (HNpos : 0 < N).
    { assert (0 < 2 ^ (53 + j - 1)) by (apply pow2_pos; lia). lia. }
    assert (Ed : Zdigits2 N = 53 + j) by (apply Zdigits2_unique; assumption).
    destruct N as [|n|n] eqn:EN; try lia.
    unfold binary_normalize.
    rewrite binary_round_long by (rewrite ?Ed; lia).
    rewrite Ed. replace (53 + j - 53) with j by lia.
    rewrite <- EN. unfold N.
    rewrite rne_center by (try reflexivity; lia).
    change (7205759403792794 <? 2 ^ 53) with true. cbv iota.
    unfold F64.tenth. simpl Z.to_pos. f_equal. unfold j. lia.
Qed.

Lemma add_back_to_tenth (m ms : positive) (e es : Z) :
  -1074 <= e -> -1074 <= es -> Z.min e es <= -56 ->
  - 2 ^ (-56 - Z.min e es)
  <= 2 * (Zpos m * 2 ^ (e - Z.min e es) + Zpos ms * 2 ^ (es - Z.min e es)
          - 7205759403792794 * 2 ^ (-56 - Z.min e es))
  <= 2 ^ (-56 - Z.min e es) ->
  F64.add (S754_finite false m e) (S754_finite false ms es) = F64.tenth.
Proof.
  intros He Hes Hg Hd. unfold F64.add, SFadd.
  set (g := Z.min e es) in *.
  pose proof (shl_align_le m e g ltac:(lia)) as [E1 _].
  pose proof (shl_align_le ms es g ltac:(lia)) as [E2 _].
  unfold cond_Zopp. rewrite E1, E2.
  set (delta := Zpos m * 2 ^ (e - g) + Zpos ms * 2 ^ (es - g)
                - 7205759403792794 * 2 ^ (-56 - g)) in *.
  replace (Zpos m * 2 ^ (e - g) + Zpos ms * 2 ^ (es - g))
    with (7205759403792794 * 2 ^ (-56 - g) + delta) by (unfold delta; lia).
  apply round_to_tenth; lia.
Qed.

Lemma sub_from_tenth (m : positive) (e : Z) :
  -1074 <= e <= -56 ->
  Zpos m <= 7205759403792794 * 2 ^ (-56 - e) ->
  (F64.sub F64.tenth (S754_finite false m e) = S754_zero false /\
   Zpos m = 7205759403792794 * 2 ^ (-56 - e)) \/
  exists ms es,
    F64.sub F64.tenth (S754_finite false m e) = S754_finite false ms es /\
    -1074 <= es /\
    - 2 ^ (-56 - Z.min e es)
    <= 2 * (Zpos m * 2 ^ (e - Z.min e es) + Zpos ms * 2 ^ (es - Z.min e es)
            - 7205759403792794 * 2 ^ (-56 - Z.min e es))
    <= 2 ^ (-56 - Z.min e es).
Proof.
  intros He Hm. unfold F64.sub, F64.tenth, SFsub.
  rewrite Z.min_r by lia.
  pose proof (shl_align_le 7205759403792794 (-56) e ltac:(lia)) as [E1 _].
  rewrite (shl_align_ge m e e) by lia.
  unfold cond_Zopp. cbn [fst]. rewrite E1.
  set (j := -56 - e) in *.
  assert (Hj0 : 0 <= j) by (unfold j; lia).
  assert (Pj : 0 < 2 ^ j) by (apply pow2_pos; lia).
  remember (7205759403792794 * 2 ^ j - Zpos m) as D eqn:ED.
  destruct D as [|dd|dd]; [left | right | exfalso; clear -ED Hm; lia].
  - split; [reflexivity | lia].
  - unfold binary_normalize.
    assert (HD : Zpos dd < 2 ^ (53 + j)).
    { rewrite pow2_split by lia.
      change (2 ^ 53) with 9007199254740992. lia. }
    assert (Hdd : Zdigits2 (Zpos dd) <= 53 + j)
      by (apply Zdigits2_le; lia).
    destruct (Z_le_gt_dec (Zdigits2 (Zpos dd)) 53) as [Hshort|Hlong].
    + destruct (binary_round_short false dd e Hshort ltac:(lia) ltac:(lia))
        as (mz & f & Er & _ & Hf & Emz).
      exists mz, f. split; [exact Er|]. split; [lia|].
      rewrite Z.min_r by lia.
      replace (f - f) with 0 by lia. change (2 ^ 0) with 1.
      rewrite Emz.
      assert (Pf : 0 < 2 ^ (e - f)) by (apply pow2_pos; lia).
      assert (E : 2 ^ (-56 - f) = 2 ^ j * 2 ^ (e - f)).
      { rewrite <- pow2_split by lia. f_equal. unfold j. lia. }
      assert (P56 : 0 < 2 ^ (-56 - f)) by (apply pow2_pos; lia).
      assert (Z : Zpos m * 2 ^ (e - f) + Zpos dd * 2 ^ (e - f) * 1
                  - 7205759403792794 * 2 ^ (-56 - f) = 0)
        by (rewrite E; nia).
      rewrite Z. lia.
    + rewrite binary_round_long by lia.
      set (k := Zdigits2 (Zpos dd) - 53).
      assert (Hk : 0 < k <= j) by (unfold k; lia).
      pose proof (rne_error (Zpos dd) k ltac:(lia)) as Herr.
      assert (Pk : 0 < 2 ^ (k - 1)) by (apply pow2_pos; lia).
      assert (Ek : 2 ^ k = 2 ^ (k - 1) * 2).
      { replace k with (k - 1 + 1) at 1 by lia. apply pow2_split; lia. }
      assert (Hkj : 2 ^ k <= 2 ^ j) by (apply Z.pow_le_mono_r; lia).
      pose proof (rne_range (Zpos dd) k) as Hr.
      assert (Hq : 0 <= Zpos dd / 2 ^ k) by (apply Z.div_pos; lia).
      destruct (Z.ltb_spec (rne (Zpos dd) k) (2 ^ 53)) as [Hlt|Hge].
      * pose proof (binary_round_aux_normal false (Zpos dd) e) as _.
        assert (Hpos : 0 < rne (Zpos dd) k).
        { assert (E1' : 2 ^ (Zdigits2 (Zpos dd) - 1) = 2 ^ 52 * 2 ^ k).
          { rewrite <- pow2_split by lia. f_equal. unfold k. lia. }
          pose proof (Zdigits2_bounds (Zpos dd) ltac:(lia)) as [Blo _].
          assert (2 ^ 52 <= Zpos dd / 2 ^ k)
            by (apply Z.div_le_lower_bound; lia).
          change (2 ^ 52) with 4503599627370496 in *. lia. }
        exists (Z.to_pos (rne (Zpos dd) k)), (e + Zdigits2 (Zpos dd) - 53).
        split; [reflexivity|]. split; [lia|].
        rewrite Z.min_l by lia. replace (e - e) with 0 by lia.
        change (2 ^ 0) with 1. rewrite Z2Pos.id by lia.
        replace (e + Zdigits2 (Zpos dd) - 53 - e) with k by (unfold k; lia).
        fold j. lia.
      * exists 4503599627370496%positive, (e + Zdigits2 (Zpos dd) - 52).
        split; [reflexivity|]. split; [lia|].
        rewrite Z.min_l by lia. replace (e - e) with 0 by lia.
        change (2 ^ 0) with 1.
        replace (e + Zdigits2 (Zpos dd) - 52 - e) with (k + 1)
          by (unfold k; lia).
        rewrite pow2_split by lia. change (2 ^ 1) with 2.
        assert (Hr53 : rne (Zpos dd) k = 2 ^ 53).
        { assert (E2' : 2 ^ Zdigits2 (Zpos dd) = 2 ^ 53 * 2 ^ k).
          { rewrite <- pow2_split by lia. f_equal. unfold k. lia. }
          pose proof (Zdigits2_bounds (Zpos dd) ltac:(lia)) as [_ Bhi].
          assert (Zpos dd / 2 ^ k < 2 ^ 53)
            by (apply Z.div_lt_upper_bound; lia).
          lia. }
        change (2 ^ 53) with 9007199254740992 in Hr53.
        fold j. lia.
Qed.

(** For every binary64 number [b] between 0 and 0.1, computing
    [0.1 - b] and adding [b] back gives 0.1 again, exactly. *)
Lemma add_sub_tenth (b : float) :
  below_tenth b -> F64.add b (F64.sub F64.tenth b) = F64.tenth.
Proof.
  destruct b as [s|s| |s m e]; unfold below_tenth;
    [ intros _; destruct s; reflexivity | intros [] | intros [] | ].
  destruct s; [intros []|]. intros (He & Hm53 & Hm).
  {
    destruct (sub_from_tenth m e He Hm) as [[Es Em]|(ms & es & Es & Hes & Hd)].
    + rewrite Es.
      assert (Hj : -56 - e = 0).
      { destruct (Z.eq_dec (-56 - e) 0) as [|Hne]; [assumption|].
        assert (2 ^ 1 <= 2 ^ (-56 - e)) by (apply Z.pow_le_mono_r; lia).
        change (2 ^ 1) with 2 in *.
        change (2 ^ 53) with 9007199254740992 in *. lia. }
      rewrite Hj in Em. change (2 ^ 0) with 1 in Em.
      assert (e = -56) by lia. subst e.
      assert (m = 7205759403792794%positive) by lia. subst m.
      reflexivity.
    + rewrite Es. apply add_back_to_tenth; lia. }
Qed.

(** ** The busy time stays between 0 and 0.1 *)

Lemma mul_tenth_below (q : float) :
  at_most_one q -> below_tenth (F64.mul F64.tenth q).
Proof.
  destruct q as [s|s| |s mq eq]; unfold at_most_one;
    [ intros _; exact I | intros [] | intros [] | ].
  destruct s; [intros []|]. intros [Heq Hmq].
  unfold F64.mul, F64.tenth, SFmul, F64.prec, F64.emax. cbn [xorb].
  assert (Pq : 0 < 2 ^ (- eq)) by (apply pow2_pos; lia).
  assert (Hprod : Zpos (7205759403792794 * mq)
                  = 7205759403792794 * Zpos mq) by reflexivity.
  destruct (binary_round_aux_bound false (Zpos (7205759403792794 * mq))
              (-56 + eq) loc_Exact 7205759403792794 (-56))
    as [Ez|(m & e & Ef & He & Hm53 & Hm)].
  - lia.
  - change (2 ^ 53) with 9007199254740992. lia.
  - lia.
  - rewrite fexp_eq.
    assert (Zdigits2 (Zpos (7205759403792794 * mq)) <= 53 + - eq).
    { apply Zdigits2_le; [lia|]. rewrite Hprod, pow2_split by lia.
      change (2 ^ 53) with 9007199254740992. lia. }
    lia.
  - lia.
  - replace (-56 - (-56 + eq)) with (- eq) by lia. rewrite Hprod.
    destruct (Z_lt_le_dec (Zpos mq) (2 ^ (- eq))); [left; nia | right].
    split; [|reflexivity]. nia.
  - rewrite Ez. exact I.
  - rewrite Ef. unfold below_tenth. repeat split; lia.
Qed.

Lemma valid_mantissa (s : bool) (m : positive) (e : Z) :
  F64.valid (S754_finite s m e) = true -> Zpos m < 2 ^ 53.
Proof.
  unfold F64.valid, valid_binary, bounded, canonical_mantissa.
  intros H. apply andb_prop in H. destruct H as [H _].
  apply Z.eqb_eq in H.
  change (Zpos (digits2_pos m)) with (Zdigits2 (Zpos m)) in H.
  change (fexp F64.prec F64.emax) with (fexp 53 1024) in H.
  rewrite fexp_eq in H.
  pose proof (Zdigits2_bounds (Zpos m) ltac:(lia)) as [_ Bhi].
  assert (2 ^ Zdigits2 (Zpos m) <= 2 ^ 53)
    by (apply Z.pow_le_mono_r; lia).
  lia.
Qed.

Lemma new_location_zero (n : Z) : new_location n 0 = loc_Exact.
Proof.
  unfold new_location, new_location_even, new_location_odd.
  destruct (Z.even n); reflexivity.
Qed.

Lemma shift_by_match (m s : Z) :
  0 <= s ->
  match s with
  | Zpos _ => Z.shiftl m s
  | Z0 => m
  | Zneg _ => 0
  end = m * 2 ^ s.
Proof.
  intros Hs. destruct s as [|ps|ps]; [| |lia].
  - change (2 ^ 0) with 1. rewrite Z.mul_1_r. reflexivity.
  - apply Z.shiftl_mul_pow2. lia.
Qed.

Lemma SFleb_finite_pos (m1 m2 : positive) (e1 e2 : Z) :
  SFleb (S754_finite false m1 e1) (S754_finite false m2 e2) = true ->
  e1 < e2 \/ (e1 = e2 /\ Zpos m1 <= Zpos m2).
Proof.
  unfold SFleb, SFcompare.
  destruct (Z.compare_spec e1 e2) as [E|L|G].
  - rewrite Pos.compare_cont_spec. unfold Pos.switch_Eq.
    destruct (Pos.compare_spec m1 m2) as [Em|Lm|Gm]; intros H.
    + right. subst. split; [reflexivity | lia].
    + right. split; [assumption|]. apply Pos2Z.pos_lt_pos in Lm. lia.
    + discriminate H.
  - intros _. left. assumption.
  - intros H. discriminate H.
Qed.

Lemma leb_hundred_value (mp : positive) (ep : Z) :
  F64.leb (S754_finite false mp ep) F64.hundred = true ->
  Zpos mp < 9007199254740992 ->
  ep <= -46 /\ Zpos mp <= 7036874417766400 * 2 ^ (-46 - ep).
Proof.
  intros H100 Hm53.
  apply SFleb_finite_pos in H100. destruct H100 as [Hlt|[-> Hle]].
  - split; [lia|].
    assert (H2 : 2 ^ 1 <= 2 ^ (-46 - ep))
      by (apply Z.pow_le_mono_r; lia).
    change (2 ^ 1) with 2 in H2. lia.
  - split; [lia|]. change (2 ^ (-46 - -46)) with 1. lia.
Qed.

Lemma div_hundred_at_most_one (p : float) :
  F64.valid p = true ->
  F64.leb F64.zero p = true ->
  F64.leb p F64.hundred = true ->
  at_most_one (F64.div p F64.hundred).
Proof.
  intros Hv H0 H100.
  destruct p as [s|s| |s mp ep].
  - exact I.
  - destruct s; discriminate.
  - discriminate.
  - destruct s; [discriminate|].
    pose proof (valid_mantissa false mp ep Hv) as Hm53.
    change (2 ^ 53) with 9007199254740992 in Hm53.
    destruct (leb_hundred_value mp ep H100 Hm53) as [Hep Hmp].
    clear Hv H0 H100.
    unfold F64.div, F64.hundred, SFdiv, SFdiv_core_binary,
      F64.prec, F64.emax.
    cbn [xorb].
    change (Zdigits2 (Zpos 7036874417766400)) with 53.
    set (e' := Z.min (fexp 53 1024
                        (Zdigits2 (Zpos mp) + ep - (53 + -46)))
                     (ep - -46)).
    set (sft := ep - -46 - e').
    assert (He' : e' <= ep + 46) by (unfold e'; lia).
    assert (Hs : 0 <= sft) by (unfold sft; lia).
    set (m' := match sft with
               | Zpos _ => Z.shiftl (Zpos mp) sft
               | Z0 => Zpos mp
               | Zneg _ => 0
               end).
    assert (Em' : m' = Zpos mp * 2 ^ sft).
    { unfold m'. apply shift_by_match. exact Hs. }
    assert (Ps : 0 < 2 ^ sft) by (apply pow2_pos; lia).
    assert (Pe : 0 < 2 ^ (- e')) by (apply pow2_pos; lia).
    assert (Hm' : 0 < m' <= 7036874417766400 * 2 ^ (- e')).
    { rewrite Em'. split; [lia|].
      assert (E : 2 ^ (- e') = 2 ^ (-46 - ep) * 2 ^ sft).
      { rewrite <- pow2_split by lia. f_equal. unfold sft. lia. }
      rewrite E. nia. }
    pose proof (Z.div_mod m' 7036874417766400 ltac:(lia)) as Hdm.
    pose proof (Z.mod_pos_bound m' 7036874417766400 ltac:(lia)) as Hmb.
    unfold Z.div, Z.modulo in Hdm, Hmb.
    destruct (Z.div_eucl m' 7036874417766400) as [qz r].
    assert (Hq : 0 <= qz <= 2 ^ (- e')) by nia.
    destruct (binary_round_aux_bound false qz e' (new_location 7036874417766400 r) 1 0)
      as [Ez|(m & e & Ef & He & Hm53' & Hm)].
    + lia.
    + change (2 ^ 53) with 9007199254740992. lia.
    + lia.
    + rewrite fexp_eq.
      assert (Zdigits2 qz <= 53 + - e').
      { apply Zdigits2_le; [lia|]. rewrite pow2_split by lia.
        change (2 ^ 53) with 9007199254740992. lia. }
      lia.
    + lia.
    + replace (0 - e') with (- e') by lia.
      destruct (Z_lt_le_dec qz (2 ^ (- e'))); [left; lia | right].
      assert (qz = 2 ^ (- e')) by lia. split; [lia|].
      assert (r = 0) by nia. subst r. apply new_location_zero.
    + rewrite Ez. exact I.
    + rewrite Ef. unfold at_most_one. replace (0 - e) with (- e) in Hm by lia.
      split; lia.
Qed.

(** Every valid percentage gives a busy time between 0 and 0.1. *)
Lemma busy_time_below_tenth (p : float) :
  F64.valid p = true ->
  F64.leb F64.zero p = true ->
  F64.leb p F64.hundred = true ->
  below_tenth (busy_time p).
Proof.
  intros Hv H0 H100. unfold busy_time, cycle_time.
  apply mul_tenth_below, div_hundred_at_most_one; assumption.
Qed.

(** For every binary64 percentage [p] with [0 <= p <= 100], the busy
    time [0.1 * (p / 100.0)] and the idle time [0.1 - busy_time], computed
    with the roundings of binary64 as the worker computes them, add up to
    the cycle window exactly; the window is the constant 0.1. *)
Theorem busy_plus_idle_is_the_window (p : float) :
  F64.valid p = true ->
  F64.leb F64.zero p = true ->
  F64.leb p F64.hundred = true ->
  F64.add (busy_time p) (sleep_time p) = cycle_time /\
  cycle_time = F64.tenth.
Proof.
  intros Hv H0 H100. split; [|reflexivity].
  unfold sleep_time, cycle_time.
  apply add_sub_tenth, busy_time_below_tenth; assumption.
Qed.

Lemma busy_plus_idle_is_the_window_witness :
  let p := S754_finite false 5277655813324800 (-47) in
  F64.valid p = true /\
  F64.leb F64.zero p = true /\
  F64.leb p F64.hundred = true /\
  F64.add (busy_time p) (sleep_time p) = cycle_time /\
  cycle_time = F64.tenth.
Proof.
  intros p.
  split; [reflexivity|]. split; [reflexivity|]. split; [reflexivity|].
  apply (busy_plus_idle_is_the_window p); reflexivity.
Defined.

(** * Further properties of the worker *)

Lemma SFleb_finite_pos_intro (m1 m2 : positive) (e1 e2 : Z) :
  e1 < e2 \/ (e1 = e2 /\ Zpos m1 <= Zpos m2) ->
  SFleb (S754_finite false m1 e1) (S754_finite false m2 e2) = true.
Proof.
  unfold SFleb, SFcompare. intros [Hlt|[He Hm]].
  - apply Z.compare_lt_iff in Hlt. rewrite Hlt. reflexivity.
  - apply Z.compare_eq_iff in He. rewrite He.
    rewrite Pos.compare_cont_spec. unfold Pos.switch_Eq.
    destruct (Pos.compare_spec m1 m2) as [E|L|G]; try reflexivity.
    apply Pos2Z.pos_lt_pos in G. lia.
Qed.

Lemma below_tenth_leb (b : float) :
  below_tenth b ->
  F64.leb F64.zero b = true /\ F64.leb b F64.tenth = true.
Proof.
  destruct b as [s|s| |s m e]; unfold below_tenth;
    [ intros _; split; reflexivity | intros [] | intros [] | ].
  destruct s; [intros []|]. intros (He & Hm53 & Hm).
  split; [reflexivity|].
  unfold F64.leb, F64.tenth. apply SFleb_finite_pos_intro.
  destruct (Z.eq_dec e (-56)) as [->|Hne].
  - right. split; [reflexivity|].
    change (2 ^ (-56 - -56)) with 1 in Hm. lia.
  - left. lia.
Qed.

Lemma below_tenth_finite_nonneg (b : float) :
  below_tenth b -> finite_nonneg b.
Proof.
  destruct b as [s|s| |s m e]; unfold below_tenth, finite_nonneg; auto.
  destruct s; tauto.
Qed.

(** The idle time computed from a busy time between 0 and 0.1 is itself
    between 0 and 0.1. *)
Lemma sub_tenth_below (b : float) :
  below_tenth b -> below_tenth (F64.sub F64.tenth b).
Proof.
  destruct b as [s|s| |s m e]; unfold below_tenth at 1;
    [ intros _ | intros [] | intros [] | ].
  { assert (E : F64.sub F64.tenth (S754_zero s) = F64.tenth)
      by (destruct s; reflexivity).
    rewrite E. unfold below_tenth, F64.tenth.
    change (2 ^ (-56 - -56)) with 1.
    change (2 ^ 53) with 9007199254740992. lia. }
  destruct s; [intros []|]. intros (He & Hm53 & Hm).
  unfold F64.sub, F64.tenth, SFsub, F64.prec, F64.emax.
  rewrite Z.min_r by lia.
  pose proof (shl_align_le 7205759403792794 (-56) e ltac:(lia)) as [E1 _].
  rewrite (shl_align_ge m e e) by lia.
  unfold cond_Zopp. cbn [fst]. rewrite E1.
  set (j := -56 - e) in *.
  assert (Hj0 : 0 <= j) by (unfold j; lia).
  assert (Pj : 0 < 2 ^ j) by (apply pow2_pos; lia).
  remember (7205759403792794 * 2 ^ j - Zpos m) as D eqn:ED.
  destruct D as [|dd|dd]; [exact I | | lia].
  unfold binary_normalize, binary_round.
  change (Zpos (digits2_pos dd)) with (Zdigits2 (Zpos dd)).
  assert (HD : Zpos dd < 2 ^ (53 + j)).
  { rewrite pow2_split by lia.
    change (2 ^ 53) with 9007199254740992. lia. }
  assert (Hdd : Zdigits2 (Zpos dd) <= 53 + j) by (apply Zdigits2_le; lia).
  set (f := fexp 53 1024 (Zdigits2 (Zpos dd) + e)).
  assert (Hf : -1074 <= f <= -56) by (unfold f; rewrite fexp_eq; lia).
  assert (Hshape : exists mz ez,
             shl_align dd e f = (mz, ez) /\ ez <= e /\
             Zdigits2 (Zpos mz) + ez = Zdigits2 (Zpos dd) + e /\
             Zpos mz = Zpos dd * 2 ^ (e - ez)).
  { destruct (Z_le_gt_dec f e) as [Hle|Hgt].
    - pose proof (shl_align_le dd e f Hle) as [Em Ee].
      destruct (shl_align dd e f) as [mz ez]. cbn [fst snd] in Em, Ee.
      subst ez. exists mz, f. split; [reflexivity|]. split; [lia|].
      split; [|exact Em].
      rewrite Em, Zdigits2_shift by lia. lia.
    - rewrite shl_align_ge by lia. exists dd, e.
      split; [reflexivity|]. split; [lia|]. split; [reflexivity|].
      replace (e - e) with 0 by lia. change (2 ^ 0) with 1. lia. }
  destruct Hshape as (mz & ez & Es & Hez & Hdig & Emz). rewrite Es.
  assert (Pz : 0 < 2 ^ (e - ez)) by (apply pow2_pos; lia).
  assert (Esplit : 2 ^ (-56 - ez) = 2 ^ j * 2 ^ (e - ez)).
  { rewrite <- pow2_split by lia. f_equal. unfold j. lia. }
  destruct (binary_round_aux_bound false (Zpos mz) ez loc_Exact
              7205759403792794 (-56))
    as [Ez|(m' & e' & Ef & He' & Hm53' & Hm')].
  - lia.
  - change (2 ^ 53) with 9007199254740992. lia.
  - lia.
  - rewrite Hdig. fold f. lia.
  - lia.
  - destruct (Z_lt_le_dec (Zpos mz) (7205759403792794 * 2 ^ (-56 - ez)));
      [left; assumption | right].
    split; [|reflexivity]. rewrite Esplit in *. nia.
  - rewrite Ez. exact I.
  - rewrite Ef. unfold below_tenth. repeat split; lia.
Qed.

(** For every binary64 percentage [p] with [0 <= p <= 100] both parts of
    the split lie in the window: the busy time and the idle time are
    non-negative finite numbers between 0 and 0.1, never a NaN, an infinity
    or a negative number. *)
Theorem split_stays_in_the_window (p : float) :
  F64.valid p = true ->
  F64.leb F64.zero p = true ->
  F64.leb p F64.hundred = true ->
  (finite_nonneg (busy_time p) /\
   F64.leb F64.zero (busy_time p) = true /\
   F64.leb (busy_time p) cycle_time = true) /\
  (finite_nonneg (sleep_time p) /\
   F64.leb F64.zero (sleep_time p) = true /\
   F64.leb (sleep_time p) cycle_time = true).
Proof.
  intros Hv H0 H100.
  pose proof (busy_time_below_tenth p Hv H0 H100) as Hb.
  pose proof (sub_tenth_below _ Hb) as Hs.
  split.
  - split; [apply below_tenth_finite_nonneg, Hb|].
    apply below_tenth_leb, Hb.
  - split; [apply below_tenth_finite_nonneg, Hs|].
    apply (below_tenth_leb _ Hs).
Qed.

Lemma split_stays_in_the_window_witness :
  let p := S754_finite false 5277655813324800 (-47) in
  F64.valid p = true /\
  F64.leb F64.zero p = true /\
  F64.leb p F64.hundred = true /\
  (finite_nonneg (busy_time p) /\
   F64.leb F64.zero (busy_time p) = true /\
   F64.leb (busy_time p) cycle_time = true) /\
  (finite_nonneg (sleep_time p) /\
   F64.leb F64.zero (sleep_time p) = true /\
   F64.leb (sleep_time p) cycle_time = true).
Proof.
  intros p.
  split; [reflexivity|]. split; [reflexivity|]. split; [reflexivity|].
  apply (split_stays_in_the_window p); reflexivity.
Defined.

Lemma worker_loop_actions (sr : sleep_policy) (busy idle : float)
    (flags : list bool) (clock : list float) :
  Forall (fun a => a = Work \/
                   (a = Sleep idle /\
                    F64.ltb F64.zero idle = true /\ sr idle = false))
    (fst (worker_loop sr busy idle flags clock)).
Proof.
  revert clock. induction flags as [|b flags IH]; intros clock; simpl.
  - constructor.
  - destruct b; [constructor|].
    destruct clock as [|now clock1]; [constructor|].
    pose proof (busy_loop_only_works (F64.add now busy) clock1) as Hb.
    assert (Hb' : Forall (fun a => a = Work \/
                    (a = Sleep idle /\
                     F64.ltb F64.zero idle = true /\ sr idle = false))
                    (fst (busy_loop (F64.add now busy) clock1))).
    { eapply Forall_impl; [|exact Hb]. intros a Ha. left. exact Ha. }
    destruct (busy_loop (F64.add now busy) clock1) as [tr [clock2|]];
      simpl in Hb'; [|exact Hb'].
    specialize (IH clock2).
    destruct (F64.ltb F64.zero idle) eqn:Hidle.
    + destruct (sr idle) eqn:Hsr; [exact Hb'|].
      destruct (worker_loop sr busy idle flags clock2) as [tr' st].
      simpl in *. apply Forall_app. split; [exact Hb'|].
      constructor; [right; auto | exact IH].
    + destruct (worker_loop sr busy idle flags clock2) as [tr' st].
      simpl in *. apply Forall_app. split; assumption.
Qed.



Lemma count_sleeps_app (tr1 tr2 : list action) :
  count_sleeps (tr1 ++ tr2) = (count_sleeps tr1 + count_sleeps tr2)%nat.
Proof.
  unfold count_sleeps. rewrite filter_app, length_app. reflexivity.
Qed.

Lemma count_sleeps_works (tr : list action) :
  Forall (fun a => a = Work) tr -> count_sleeps tr = O.
Proof.
  induction 1 as [|a tr Ha _ IH]; [reflexivity|].
  subst a. exact IH.
Qed.

Lemma worker_loop_sleep_count (sr : sleep_policy) (busy idle : float)
    (flags : list bool) (clock : list float) :
  (count_sleeps (fst (worker_loop sr busy idle flags clock))
   <= List.length flags)%nat.
Proof.
  revert clock. induction flags as [|b flags IH]; intros clock; simpl.
  - apply Nat.le_refl.
  - destruct b; [simpl; apply Nat.le_0_l|].
    destruct clock as [|now clock1]; [simpl; apply Nat.le_0_l|].
    pose proof (busy_loop_only_works (F64.add now busy) clock1) as Hb.
    apply count_sleeps_works in Hb.
    destruct (busy_loop (F64.add now busy) clock1) as [tr [clock2|]];
      simpl in Hb; [|simpl; rewrite Hb; apply Nat.le_0_l].
    specialize (IH clock2).
    destruct (F64.ltb F64.zero idle).
    + destruct (sr idle); [simpl; rewrite Hb; apply Nat.le_0_l|].
      destruct (worker_loop sr busy idle flags clock2) as [tr' st].
      simpl in *. rewrite count_sleeps_app, Hb.
      change (count_sleeps (Sleep idle :: tr')) with (S (count_sleeps tr')).
      simpl. apply le_n_S. exact IH.
    + destruct (worker_loop sr busy idle flags clock2) as [tr' st].
      simpl in *. rewrite count_sleeps_app, Hb. simpl.
      apply Nat.le_trans with (List.length flags); [exact IH|].
      apply Nat.le_succ_diag_r.
Qed.


Lemma worker_loop_cut (sr : sleep_policy) (busy idle : float)
    (before after : list bool) (clock : list float) :
  worker_loop sr busy idle (before ++ true :: after) clock
  = worker_loop sr busy idle (before ++ [true]) clock.
Proof.
  revert clock. induction before as [|b before IH]; intros clock.
  - reflexivity.
  - cbn [app worker_loop]. destruct b; [reflexivity|].
    destruct clock as [|now clock1]; [reflexivity|].
    cbv zeta.
    destruct (busy_loop (F64.add now busy) clock1) as [tr [clock2|]];
      [|reflexivity].
    rewrite (IH clock2). reflexivity.
Qed.


(** * Further properties of the coordinator *)

Lemma accepted_percentage (p : float) :
  percentage_invalid p = false ->
  finite_nonneg p /\
  F64.leb F64.zero p = true /\ F64.leb p F64.hundred = true.
Proof.
  unfold percentage_invalid. intros H.
  apply negb_false_iff, andb_prop in H. destruct H as [H0 H100].
  split; [|split; assumption].
  destruct p as [s|s| |s m e]; unfold finite_nonneg.
  - exact I.
  - destruct s; discriminate.
  - discriminate.
  - destruct s; [discriminate | exact I].
Qed.

(** With a valid percentage, the blocks after the startup end in one of
    three ways. *)
Lemma tail_outcome (h : host) (a : args) (alive : nat -> bool)
    (l : list nat) (s : coord) :
  let r := (wait_phase h a ;; stop_all alive l ;; print stopped_line) s in
  (exists v, fst r = Val v) \/ fst r = Halt Uncaught \/ fst r = Halt Waiting.
Proof.
  cbv zeta.
  assert (E : (wait_phase h a ;; stop_all alive l ;; print stopped_line) s
              = match wait_phase h a s with
                | (Val _, s5) => (stop_all alive l ;; print stopped_line) s5
                | (Halt o, s5) => (Halt o, s5)
                end) by reflexivity.
  rewrite E. clear E.
  pose proof (wait_phase_halts h a s) as Hh.
  destruct (wait_phase h a s) as [[[]|o] s5]; simpl in Hh.
  - left. unfold bind.
    destruct (total_stop_all alive l s5) as [[] E].
    destruct (stop_all alive l s5) as [r s6]. simpl in E. subst r.
    eexists. reflexivity.
  - right. destruct (Hh o eq_refl) as [Ho|[Ho _]]; subst o;
      [left | right]; reflexivity.
Qed.

Lemma main_outcome_valid (h : host) (a : args) (w : world) :
  percentage_invalid (percentage a) = false ->
  snd (main h a w) = Exited 0 \/
  snd (main h a w) = Uncaught \/
  snd (main h a w) = Waiting.
Proof.
  intros Hv. unfold main.
  set (s0 := {| stop_event := false; pending := signals w; out := [] |}).
  destruct (main_body_startup h a (still_alive w) s0 Hv) as (s' & _ & _ & E).
  rewrite E.
  pose proof (tail_outcome h a (still_alive w) (py_range (num_cores h a)) s')
    as T. cbv zeta in T.
  destruct ((wait_phase h a ;; stop_all (still_alive w)
               (py_range (num_cores h a)) ;; print stopped_line) s')
    as [[v|o] s'']; simpl in *.
  - left. reflexivity.
  - destruct T as [[v E']|[E'|E']]; try discriminate E';
      injection E' as ->; auto.
Qed.



(** ** What happens before the wait *)

Lemma print_summary_run (h : host) (a : args) (s : coord) :
  print_summary h a s
  = (Val tt, {| stop_event := stop_event s; pending := pending s;
                out := out s ++ summary_lines h a |}).
Proof.
  unfold print_summary, summary_lines, print, emit, bind.
  destruct (duration_given (duration a)); simpl;
    rewrite <- !app_assoc; reflexivity.
Qed.

Lemma install_handlers_run (s : coord) :
  install_handlers s
  = (Val tt, {| stop_event := stop_event s; pending := pending s;
                out := out s ++ [SignalInstall SIGINT;
                                 SignalInstall SIGTERM] |}).
Proof.
  unfold install_handlers, emit, bind. simpl.
  rewrite <- app_assoc. reflexivity.
Qed.

Lemma run_deliver_startup (p : float) :
  run_extends (startup_event p) deliver.
Proof.
  intros s. unfold deliver.
  destruct (pending s) as [|n rest]; [apply extends_refl|].
  eapply extends_trans.
  2:{ apply run_repeat_M.
      apply run_bind; [|intros _; apply run_event_set; exact I].
      apply run_print. discriminate. }
  exists []. simpl. rewrite app_nil_r.
  split; [reflexivity|]. split; [constructor|]. split; [auto | intros []].
Qed.

Lemma run_start_workers_startup (h : host) (a : args) :
  run_extends (startup_event (percentage a)) (start_workers h a).
Proof.
  apply run_bind; [|intros _; apply run_ret].
  apply run_for_each. intros i.
  apply run_bind; [|intros _; apply run_deliver_startup].
  apply run_emit; [reflexivity | discriminate].
Qed.

(** With a valid percentage the run reaches the waiting block in a state
    whose log is the summary, the two handler installations, and then only
    startup calls. *)
Lemma main_body_startup_log (h : host) (a : args) (alive : nat -> bool)
    (s : coord) :
  percentage_invalid (percentage a) = false ->
  exists s' tr,
    out s' = out s ++ summary_lines h a
             ++ [SignalInstall SIGINT; SignalInstall SIGTERM] ++ tr /\
    Forall (startup_event (percentage a)) tr /\
    (stop_event s = false -> Forall (fun n => n = O) (pending s) ->
     stop_event s' = false) /\
    extends (fun _ => True) s s' /\
    main_body h a alive s
    = (wait_phase h a ;;
       stop_all alive (py_range (num_cores h a)) ;;
       print stopped_line) s'.
Proof.
  intros Hv.
  pose proof (run_print_summary _ covers_true h a s) as Y1.
  rewrite print_summary_run in Y1. cbn [snd] in Y1.
  unfold main_body, validate_percentage. rewrite Hv.
  unfold bind at 1. cbn [ret].
  unfold bind at 1. rewrite print_summary_run.
  unfold bind at 1. rewrite install_handlers_run.
  set (s2 := {| stop_event := stop_event s; pending := pending s;
                out := (out s ++ summary_lines h a)
                       ++ [SignalInstall SIGINT; SignalInstall SIGTERM] |}).
  cbn [stop_event pending out]. fold s2.
  assert (Y2 : extends (fun _ => True) s s2).
  { eapply extends_trans; [exact Y1|].
    pose proof (run_install_handlers _ covers_true
                  {| stop_event := stop_event s; pending := pending s;
                     out := out s ++ summary_lines h a |}) as Y.
    rewrite install_handlers_run in Y. exact Y. }
  unfold bind at 1.
  destruct (start_workers_launched h a s2) as (s3 & E3 & _).
  pose proof (run_start_workers (fun _ => True) covers_true h a
                (fun _ _ => I) s2) as Y3.
  rewrite E3 in Y3. cbn [snd] in Y3.
  pose proof (run_start_workers_startup h a s2) as X3.
  pose proof (quiet_start_workers h a s2) as Q3.
  rewrite E3 in X3, Q3 |- *. cbn [snd] in X3, Q3.
  destruct X3 as (tr3 & O3 & F3 & _).
  unfold bind at 1. unfold print at 1, emit at 1.
  eexists. exists (tr3 ++ [Print [Str "Running on "; Int (num_cores h a);
                                   Str " cores. Press Ctrl+C to stop."]]).
  split; [|split; [|split; [|split; [|reflexivity]]]].
  - cbn [out]. rewrite O3. unfold s2. cbn [out].
    rewrite <- !app_assoc. reflexivity.
  - apply Forall_app. split; [exact F3|].
    constructor; [|constructor]. simpl. discriminate.
  - intros Hf Hp. cbn [stop_event].
    assert (Hq : quiet s2) by (split; assumption).
    destruct (Q3 Hq) as [Hf3 _]. exact Hf3.
  - eapply extends_trans; [exact Y2|].
    eapply extends_trans; [exact Y3|].
    apply (run_print (fun _ => True)). exact I.
Qed.

(** The summary is printed and both handlers are installed before anything
    else happens: with a valid percentage the log starts with the five
    summary lines and the installations for SIGINT and SIGTERM, in this
    order, so no worker is started and no wait begins before the handlers
    are in place. *)
Theorem handlers_are_installed_before_any_worker (h : host) (a : args)
    (w : world) :
  percentage_invalid (percentage a) = false ->
  exists rest,
    fst (main h a w)
    = summary_lines h a
      ++ [SignalInstall SIGINT; SignalInstall SIGTERM] ++ rest /\
    launched (summary_lines h a
              ++ [SignalInstall SIGINT; SignalInstall SIGTERM]) = [].
Proof.
  intros Hv. unfold main.
  set (s0 := {| stop_event := false; pending := signals w; out := [] |}).
  destruct (main_body_startup_log h a (still_alive w) s0 Hv)
    as (s' & tr & O' & _ & _ & _ & E).
  rewrite E.
  pose proof (run_bind (fun _ => True) (wait_phase h a)
                (fun _ => stop_all (still_alive w)
                            (py_range (num_cores h a)) ;;
                          print stopped_line)
                (run_wait_phase _ covers_true h a)) as X.
  assert (X2 : forall u : unit, run_extends (fun _ => True)
             (stop_all (still_alive w) (py_range (num_cores h a)) ;;
              print stopped_line)).
  { intros _. apply run_bind; [apply run_stop_all, covers_true | intros _].
    apply run_print. exact I. }
  specialize (X X2 s'). destruct X as (tr2 & O2 & _).
  exists (tr ++ tr2). split.
  - destruct ((wait_phase h a ;; stop_all (still_alive w)
                 (py_range (num_cores h a)) ;; print stopped_line) s')
      as [[v|o] s'']; cbn [fst snd] in *;
      rewrite O2, O'; cbn [out]; rewrite <- !app_assoc; reflexivity.
  - unfold summary_lines.
    destruct (duration_given (duration a)); reflexivity.
Qed.

Lemma handlers_are_installed_before_any_worker_witness :
  let h := {| cpu_count := 2; sleep_raises := fun d => negb (F64.leb F64.zero d) |} in
  let w := {| signals := [O; 1%nat]; still_alive := fun _ => false |} in
  let a := {| percentage := F64.of_Z 50; cores := None; duration := None |} in
  percentage_invalid (percentage a) = false /\
  exists rest,
    fst (main h a w)
    = summary_lines h a
      ++ [SignalInstall SIGINT; SignalInstall SIGTERM] ++ rest /\
    launched (summary_lines h a
              ++ [SignalInstall SIGINT; SignalInstall SIGTERM]) = [].
Proof.
  intros h w a. split; [reflexivity|].
  apply (handlers_are_installed_before_any_worker h a w). reflexivity.
Defined.

(** ** The workers that are started *)

Lemma covers_target_is (p : float) : covers (target_is p).
Proof. repeat split. Qed.

Lemma run_main_body_target (h : host) (a : args) (alive : nat -> bool) :
  run_extends (target_is (percentage a)) (main_body h a alive).
Proof.
  pose proof (covers_target_is (percentage a)) as C.
  unfold main_body.
  apply run_bind; [apply run_validate_percentage, C | intros _].
  apply run_bind; [apply run_print_summary, C | intros _].
  apply run_bind; [apply run_install_handlers, C | intros _].
  apply run_bind.
  { apply run_bind; [|intros _; apply run_ret].
    apply run_for_each. intros i.
    apply run_proc_start; [exact C | reflexivity]. }
  intros processes.
  apply run_bind; [apply run_print; exact I | intros _].
  apply run_bind; [apply run_wait_phase, C | intros _].
  apply run_bind; [apply run_stop_all, C | intros _].
  apply run_print; exact I.
Qed.

Lemma in_launched (tr : list event) (i : nat) (t : float) :
  In (ProcStart i t) tr -> In i (launched tr).
Proof.
  intros Hin. unfold launched. apply in_flat_map.
  exists (ProcStart i t). split; [exact Hin | left; reflexivity].
Qed.

(** Every worker is started on the percentage of the command line, its
    index is below the resolved core count, and no index is started twice,
    whatever signals arrive meanwhile. *)
Theorem workers_share_the_target (h : host) (a : args) (w : world)
    (i : nat) (t : float) :
  In (ProcStart i t) (fst (main h a w)) ->
  t = percentage a /\
  Z.of_nat i < num_cores h a /\
  NoDup (launched (fst (main h a w))).
Proof.
  intros Hin.
  destruct (percentage_invalid (percentage a)) eqn:Hv.
  { exfalso.
    assert (E : main h a w
              = ([PrintErr [Str "Error: Percentage must be between 0 and 100"]],
                 Exited 1)).
    { unfold main, main_body, validate_percentage. rewrite Hv. reflexivity. }
    rewrite E in Hin. destruct Hin as [H|[]]. discriminate H. }
  split; [|split].
  - assert (F : Forall (target_is (percentage a)) (fst (main h a w))).
    { unfold main.
      set (s0 := {| stop_event := false; pending := signals w; out := [] |}).
      pose proof (run_main_body_target h a (still_alive w) s0) as X.
      apply extends_from_empty in X; [|reflexivity].
      destruct (main_body h a (still_alive w) s0) as [[v|o] s']; exact X. }
    rewrite Forall_forall in F. exact (F _ Hin).
  - apply in_launched in Hin. rewrite (main_launched h a w Hv) in Hin.
    unfold py_range in Hin. apply in_seq in Hin. lia.
  - rewrite (main_launched h a w Hv). apply seq_NoDup.
Qed.

Lemma workers_share_the_target_witness :
  let h := {| cpu_count := 2; sleep_raises := fun d => negb (F64.leb F64.zero d) |} in
  let w := {| signals := [1%nat; O]; still_alive := fun _ => false |} in
  let a := {| percentage := F64.of_Z 50; cores := None; duration := None |} in
  In (ProcStart 1 (F64.of_Z 50)) (fst (main h a w)) /\
  F64.of_Z 50 = percentage a /\
  Z.of_nat 1 < num_cores h a /\
  NoDup (launched (fst (main h a w))).
Proof.
  intros h w a.
  assert (Hin : In (ProcStart 1 (F64.of_Z 50)) (fst (main h a w)))
    by (vm_compute; tauto).
  split; [exact Hin|].
  exact (workers_share_the_target h a w 1%nat (F64.of_Z 50) Hin).
Defined.

(** ** Runs with a duration *)

Lemma time_sleep_accepted (h : host) (d : float) (s : coord) :
  sleep_raises h d = false ->
  exists s', time_sleep h d s = (Val tt, s') /\
             In (TimeSleep d) (out s').
Proof.
  intros Hs. unfold time_sleep. rewrite Hs. unfold bind, emit.
  set (s0 := {| stop_event := stop_event s; pending := pending s;
                out := out s ++ [TimeSleep d] |}).
  destruct (run_total (fun _ => True) deliver s0 total_deliver
              (run_deliver _ covers_true)) as ([] & s' & E & X).
  rewrite E. exists s'. split; [reflexivity|].
  apply (extends_keeps_log _ _ _ _ X). unfold s0. simpl.
  apply in_or_app. right. left. reflexivity.
Qed.



Lemma startup_event_facts (p : float) (tr : list event) :
  Forall (startup_event p) tr ->
  (forall i t, ~ In (ProcJoin i t) tr) /\
  (forall i, ~ In (ProcTerminate i) tr) /\
  (forall d, ~ In (TimeSleep d) tr) /\
  ~ In (Print stopped_line) tr.
Proof.
  intros F. rewrite Forall_forall in F.
  repeat split; intros; intros Hin; apply F in Hin; simpl in Hin;
    contradiction.
Qed.

(** A duration that [time.sleep] refuses (a negative number or a NaN, both
    truthy) is found out only after the workers have been started: the
    exception escapes, and the coordinator has then started every worker
    but sets no stop flag of its own, joins and terminates nobody and does
    not print the final line.  Unless a signal arrives during the startup,
    the flag is never set at all. *)
Theorem refused_duration_leaves_the_workers (h : host) (a : args)
    (w : world) (d : float) :
  percentage_invalid (percentage a) = false ->
  duration_given (duration a) = Some d ->
  sleep_raises h d = true ->
  snd (main h a w) = Uncaught /\
  launched (fst (main h a w)) = py_range (num_cores h a) /\
  (forall i t, ~ In (ProcJoin i t) (fst (main h a w))) /\
  (forall i, ~ In (ProcTerminate i) (fst (main h a w))) /\
  ~ In (Print stopped_line) (fst (main h a w)) /\
  (Forall (fun n => n = O) (signals w) ->
   ~ In EventSet (fst (main h a w))).
Proof.
  intros Hv Hd Hs.
  pose proof (main_launched h a w Hv) as HL.
  revert HL. unfold main.
  set (s0 := {| stop_event := false; pending := signals w; out := [] |}).
  destruct (main_body_startup_log h a (still_alive w) s0 Hv)
    as (s' & tr & O' & F & Hq & X & E).
  rewrite E. clear E.
  assert (E : (wait_phase h a ;;
               stop_all (still_alive w) (py_range (num_cores h a)) ;;
               print stopped_line) s' = (Halt Uncaught, s')).
  { unfold wait_phase. rewrite Hd. unfold bind, time_sleep. rewrite Hs.
    reflexivity. }
  rewrite E. clear E. cbn [fst snd]. intros HL.
  split; [reflexivity|]. split; [exact HL|].
  assert (Fall : Forall (startup_event (percentage a)) (out s')).
  { rewrite O'. change (out s0) with (@nil event). rewrite app_nil_l.
    apply Forall_app. split.
    - unfold summary_lines. destruct (duration_given (duration a));
        repeat (apply Forall_cons; [simpl; discriminate|]);
        apply Forall_nil.
    - apply Forall_cons; [exact I|]. apply Forall_cons; [exact I | exact F]. }
  destruct (startup_event_facts _ _ Fall) as (J & T & _ & S).
  split; [exact J|]. split; [exact T|]. split; [exact S|].
  intros Hw Hin.
  assert (Hf : stop_event s' = false) by (apply Hq; [reflexivity | exact Hw]).
  destruct X as (trx & Ox & _ & _ & Hset).
  change (out s0) with (@nil event) in Ox. rewrite app_nil_l in Ox.
  rewrite Ox in Hin. rewrite (Hset Hin) in Hf. discriminate Hf.
Qed.

Lemma refused_duration_leaves_the_workers_witness :
  let h := {| cpu_count := 2; sleep_raises := fun d => negb (F64.leb F64.zero d) |} in
  let w := {| signals := [O; O; O]; still_alive := fun _ => true |} in
  let d := S754_finite true 4503599627370496 (-52) in
  let a := {| percentage := F64.of_Z 50; cores := None;
              duration := Some d |} in
  percentage_invalid (percentage a) = false /\
  duration_given (duration a) = Some d /\
  sleep_raises h d = true /\
  Forall (fun n => n = O) (signals w) /\
  snd (main h a w) = Uncaught /\
  launched (fst (main h a w)) = py_range (num_cores h a) /\
  ~ In EventSet (fst (main h a w)).
Proof.
  intros h w d a.
  split; [reflexivity|]. split; [reflexivity|]. split; [reflexivity|].
  assert (Hw : Forall (fun n => n = O) (signals w))
    by (repeat constructor).
  split; [exact Hw|].
  destruct (refused_duration_leaves_the_workers h a w d
              eq_refl eq_refl eq_refl) as (H1 & H2 & _ & _ & _ & H6).
  split; [exact H1|]. split; [exact H2|]. exact (H6 Hw).
Defined.

(** ** Runs without a duration *)

Lemma pending_repeat_handler (n : nat) (s : coord) :
  pending (snd (repeat_M n signal_handler s)) = pending s.
Proof.
  revert s. induction n as [|n IH]; intros s; [reflexivity|].
  simpl repeat_M. unfold bind.
  destruct (total_signal_handler s) as [[] E].
  assert (Hp : pending (snd (signal_handler s)) = pending s) by reflexivity.
  destruct (signal_handler s) as [r s1]. simpl in E, Hp. subst r.
  rewrite IH. exact Hp.
Qed.

Lemma flag_repeat_handler (n : nat) (s : coord) :
  n <> O -> stop_event (snd (repeat_M n signal_handler s)) = true.
Proof.
  destruct n as [|n]; [congruence|]. intros _.
  simpl repeat_M. unfold bind.
  destruct (total_signal_handler s) as [[] E].
  assert (Hf : stop_event (snd (signal_handler s)) = true) by reflexivity.
  destruct (signal_handler s) as [r s1]. simpl in E, Hf. subst r.
  destruct (run_repeat_M (fun _ => True) n signal_handler
              (run_signal_handler _ covers_true) s1) as (_ & _ & _ & Hm & _).
  auto.
Qed.

(** Delivering keeps a state armed and uses up one entry of the oracle. *)
Lemma armed_deliver (s : coord) :
  armed s ->
  exists s',
    deliver s = (Val tt, s') /\ armed s' /\
    (List.length (pending s') <= Nat.pred (List.length (pending s)))%nat.
Proof.
  intros Ha. unfold deliver.
  destruct (pending s) as [|n rest] eqn:Ep.
  - exists s. split; [reflexivity|]. split; [exact Ha|].
    rewrite Ep. simpl. apply Nat.le_refl.
  - set (s1 := {| stop_event := stop_event s; pending := rest;
                  out := out s |}).
    destruct (total_repeat_M n signal_handler total_signal_handler s1)
      as [[] E].
    pose proof (pending_repeat_handler n s1) as Hp.
    pose proof (flag_repeat_handler n s1) as Hf.
    destruct (run_repeat_M (fun _ => True) n signal_handler
                (run_signal_handler _ covers_true) s1)
      as (_ & _ & _ & Hm & _).
    destruct (repeat_M n signal_handler s1) as [r s']. simpl in *. subst r.
    exists s'. split; [reflexivity|]. split.
    + destruct Ha as [Ht|Hex]; [left; auto|].
      rewrite Ep in Hex. inversion Hex as [? ? Hn|? ? Hr].
      * left. apply Hf. exact Hn.
      * right. rewrite Hp. exact Hr.
    + rewrite Hp. apply Nat.le_refl.
Qed.

Lemma armed_emit_then_deliver (e : event) (s : coord) :
  armed s ->
  exists s',
    (emit e ;; deliver) s = (Val tt, s') /\ armed s' /\
    (List.length (pending s') <= Nat.pred (List.length (pending s)))%nat.
Proof.
  intros Ha. unfold bind, emit.
  set (s0 := {| stop_event := stop_event s; pending := pending s;
                out := out s ++ [e] |}).
  assert (Ha0 : armed s0) by exact Ha.
  destruct (armed_deliver s0 Ha0) as (s' & E & Ha' & Hl).
  rewrite E. exists s'. split; [reflexivity|]. split; [exact Ha' | exact Hl].
Qed.

Lemma armed_start_loop (t : float) (l : list nat) (s : coord) :
  armed s ->
  exists s', for_each l (fun i => proc_start i t) s = (Val tt, s') /\
             armed s'.
Proof.
  revert s. induction l as [|i l IH]; intros s Ha.
  - exists s. split; [reflexivity | exact Ha].
  - cbn [for_each]. unfold bind at 1. unfold proc_start at 1.
    destruct (armed_emit_then_deliver (ProcStart i t) s Ha)
      as (s1 & E1 & Ha1 & _).
    rewrite E1. apply IH, Ha1.
Qed.

Lemma poll_armed (h : host) (rounds : nat) (s : coord) :
  sleep_raises h F64.half = false ->
  armed s ->
  (List.length (pending s) <= rounds)%nat ->
  exists s', poll h rounds s = (Val tt, s').
Proof.
  intros Hs. revert s. induction rounds as [|r IH]; intros s Ha Hl; simpl.
  - destruct (stop_event s) eqn:Hf; [eexists; reflexivity|].
    exfalso. destruct Ha as [Ht|Hex]; [congruence|].
    destruct (pending s); [inversion Hex | simpl in Hl; lia].
  - destruct (stop_event s) eqn:Hf; [eexists; reflexivity|].
    unfold bind at 1. unfold time_sleep. rewrite Hs.
    destruct (armed_emit_then_deliver (TimeSleep F64.half) s Ha)
      as (s1 & E1 & Ha1 & Hl1).
    rewrite E1. apply IH; [exact Ha1 | lia].
Qed.

Lemma not_exists_nonzero (l : list nat) :
  ~ Exists (fun n => n <> O) l -> Forall (fun n => n = O) l.
Proof.
  intros H. apply Forall_forall. intros n Hin.
  destruct n as [|n]; [reflexivity|]. exfalso. apply H.
  apply Exists_exists. exists (S n). split; [exact Hin | discriminate].
Qed.



(** * The integer part of the workload generator *)

Lemma lcg_step_mod (n : Z) :
  lcg_step n = (n * 1103515245 + 12345) mod 2 ^ 31.
Proof.
  unfold lcg_step. change 2147483647 with (Z.ones 31).
  apply Z.land_ones. lia.
Qed.

Lemma lcg_step_range (n : Z) : 0 <= lcg_step n < 2 ^ 31.
Proof.
  rewrite lcg_step_mod. apply Z.mod_pos_bound. reflexivity.
Qed.

Lemma lcg_iter_range (k : nat) (n : Z) : 0 <= lcg_iter (S k) n < 2 ^ 31.
Proof.
  revert n. induction k as [|k IH]; intros n.
  - apply lcg_step_range.
  - change (lcg_iter (S (S k)) n) with (lcg_iter (S k) (lcg_step n)).
    apply IH.
Qed.

(** A positive integer below [2 ^ 53] converts to binary64 without
    rounding. *)
Lemma of_Z_exact (n : Z) :
  0 < n < 2 ^ 53 ->
  exists m e,
    F64.of_Z n = S754_finite false m e /\
    -1074 <= e <= 0 /\
    Zpos m = n * 2 ^ (- e).
Proof.
  intros [Hlo Hhi]. destruct n as [|p|p]; try lia.
  unfold F64.of_Z, binary_normalize, F64.prec, F64.emax.
  destruct (binary_round_short false p 0) as (m & f & E & _ & Hf & Em).
  - apply Zdigits2_le; lia.
  - lia.
  - lia.
  - exists m, f. split; [exact E|]. split; [lia|].
    rewrite Em. replace (0 - f) with (- f) by lia. reflexivity.
Qed.

(** Each round of the integer recurrence is [n * 1103515245 + 12345]
    reduced modulo [2 ^ 31], for every integer [n], a negative one included.
    So after one round or more the value lies in [0, 2 ^ 31) whatever the
    start, and its conversion to a float in [result + n] is exact: either it
    is 0, or the float has the value of the integer. *)
Theorem lcg_stays_in_31_bits (k : nat) (seed : Z) :
  lcg_step seed = (seed * 1103515245 + 12345) mod 2 ^ 31 /\
  0 <= lcg_iter (S k) seed < 2 ^ 31 /\
  ((lcg_iter (S k) seed = 0 /\
    F64.of_Z (lcg_iter (S k) seed) = S754_zero false) \/
   exists m e,
     F64.of_Z (lcg_iter (S k) seed) = S754_finite false m e /\
     -1074 <= e <= 0 /\
     Zpos m = lcg_iter (S k) seed * 2 ^ (- e)).
Proof.
  split; [apply lcg_step_mod|].
  pose proof (lcg_iter_range k seed) as Hr.
  split; [exact Hr|].
  destruct (Z.eq_dec (lcg_iter (S k) seed) 0) as [E|Hne].
  - left. split; [exact E|]. rewrite E. reflexivity.
  - right. apply of_Z_exact.
    assert (2 ^ 31 < 2 ^ 53) by reflexivity. lia.
Qed.

(** The integer that [do_intensive_work] adds to its floating-point
    accumulator does not depend on anything: ten rounds from 104729 give
    1302893495 in every call, which converts exactly, so the value returned
    is the accumulator plus that constant. *)
Theorem work_return_adds_a_constant (result : float) :
  lcg_result = 1302893495 /\
  F64.of_Z lcg_result = S754_finite false 5464731397652480 (-22) /\
  5464731397652480 = lcg_result * 2 ^ 22 /\
  work_return result
  = F64.add result (S754_finite false 5464731397652480 (-22)).
Proof.
  split; [reflexivity|]. split; [reflexivity|]. split; reflexivity.
Qed.

(** * Runs of the coordinator, for predicates that hold of the handler *)

Section HandlerRuns.

Variable P : event -> Prop.
Hypothesis P_line : P (Print stopping_line).
Hypothesis P_set : P EventSet.

Lemma run_deliver_gen : run_extends P deliver.
Proof.
  intros s. unfold deliver.
  destruct (pending s) as [|n rest]; [apply extends_refl|].
  eapply extends_trans.
  2:{ apply run_repeat_M.
      apply run_bind; [|intros _; apply run_event_set; exact P_set].
      apply run_print. exact P_line. }
  exists []. simpl. rewrite app_nil_r.
  split; [reflexivity|]. split; [constructor|]. split; [auto | intros []].
Qed.

Lemma run_time_sleep_gen (h : host) (d : float) :
  P (TimeSleep d) -> run_extends P (time_sleep h d).
Proof.
  intros Hd. unfold time_sleep.
  destruct (sleep_raises h d); [apply run_halt|].
  apply run_bind; [|intros _; apply run_deliver_gen].
  apply run_emit; [exact Hd | discriminate].
Qed.

Lemma run_poll_gen (h : host) (rounds : nat) :
  P (TimeSleep F64.half) -> run_extends P (poll h rounds).
Proof.
  intros Hh. induction rounds as [|n IH]; intros s; simpl.
  - destruct (stop_event s); apply extends_refl.
  - destruct (stop_event s); [apply extends_refl|].
    apply (run_bind P (time_sleep h F64.half) (fun _ => poll h n)).
    + apply run_time_sleep_gen, Hh.
    + intros _. exact IH.
Qed.

Lemma run_wait_phase_gen (h : host) (a : args) :
  P (TimeSleep (wait_length a)) -> run_extends P (wait_phase h a).
Proof.
  unfold wait_phase, wait_length.
  destruct (duration_given (duration a)) as [d|]; intros Hw.
  - apply run_bind; [apply run_time_sleep_gen, Hw|].
    intros _. apply run_event_set, P_set.
  - intros s. apply run_poll_gen, Hw.
Qed.

Lemma run_proc_start_gen (i : nat) (t : float) :
  P (ProcStart i t) -> run_extends P (proc_start i t).
Proof.
  intros H. apply run_bind; [|intros _; apply run_deliver_gen].
  apply run_emit; [exact H | discriminate].
Qed.

Lemma run_proc_join_gen (i : nat) (t : Z) :
  P (ProcJoin i t) -> run_extends P (proc_join i t).
Proof.
  intros H. apply run_bind; [|intros _; apply run_deliver_gen].
  apply run_emit; [exact H | discriminate].
Qed.

End HandlerRuns.

(** ** The lengths the coordinator sleeps *)

Lemma run_main_body_sleeps (h : host) (a : args) (alive : nat -> bool) :
  run_extends (sleeps_are (wait_length a)) (main_body h a alive).
Proof.
  set (P := sleeps_are (wait_length a)).
  assert (Pl : P (Print stopping_line)) by exact I.
  assert (Ps : P EventSet) by exact I.
  unfold main_body.
  apply run_bind.
  { unfold validate_percentage.
    destruct (percentage_invalid (percentage a)); [|apply run_ret].
    apply run_bind; [|intros _; apply run_halt].
    apply run_emit; [exact I | discriminate]. }
  intros _. apply run_bind.
  { intros s. rewrite print_summary_run. cbn [snd].
    exists (summary_lines h a).
    split; [reflexivity|]. split; [|split; [auto|]].
    - unfold summary_lines. destruct (duration_given (duration a));
        repeat (apply Forall_cons; [exact I|]); apply Forall_nil.
    - unfold summary_lines. destruct (duration_given (duration a));
        simpl; intros H; repeat (destruct H as [H|H]; [discriminate H|]);
        destruct H. }
  intros _. apply run_bind.
  { apply run_bind; [|intros _]; (apply run_emit; [exact I | discriminate]). }
  intros _. apply run_bind.
  { apply run_bind; [|intros _; apply run_ret].
    apply run_for_each. intros i.
    apply run_proc_start_gen; [exact Pl | exact Ps | exact I]. }
  intros processes.
  apply run_bind; [apply run_print; exact I | intros _].
  apply run_bind.
  { apply run_wait_phase_gen; [exact Pl | exact Ps | reflexivity]. }
  intros _. apply run_bind.
  { apply run_bind; [apply run_event_set, Ps | intros _].
    apply run_for_each. intros p.
    apply run_bind; [apply run_proc_join_gen; [exact Pl | exact Ps | exact I]|].
    intros _. destruct (alive p); [|apply run_ret].
    apply run_emit; [exact I | discriminate]. }
  intros _. apply run_print. exact I.
Qed.



(** ** Who is joined and who is terminated *)

Lemma joined_app (tr1 tr2 : list event) :
  joined (tr1 ++ tr2) = joined tr1 ++ joined tr2.
Proof. apply flat_map_app. Qed.

Lemma terminated_app (tr1 tr2 : list event) :
  terminated (tr1 ++ tr2) = terminated tr1 ++ terminated tr2.
Proof. apply flat_map_app. Qed.

Lemma no_shutdown_calls (tr : list event) :
  Forall no_shutdown_call tr -> joined tr = [] /\ terminated tr = [].
Proof.
  induction 1 as [|e tr He _ [IHj IHt]]; [split; reflexivity|].
  destruct e; simpl in He; try contradiction;
    unfold joined, terminated in *; simpl; split; assumption.
Qed.

Lemma startup_event_no_shutdown (p : float) (e : event) :
  startup_event p e -> no_shutdown_call e.
Proof. destruct e; simpl; auto. Qed.

Lemma drain_loop_exact (alive : nat -> bool) (l : list nat) (s : coord) :
  exists s' tr,
    for_each l (fun p =>
      proc_join p 2 ;;
      if alive p then proc_terminate p else ret tt) s = (Val tt, s') /\
    out s' = out s ++ tr /\
    joined tr = l /\
    terminated tr = filter alive l.
Proof.
  revert s. induction l as [|p l IH]; intros s.
  - exists s, []. rewrite app_nil_r. repeat split; reflexivity.
  - cbn [for_each]. unfold bind at 1.
    assert (Hbody : exists s1 tr1,
               (proc_join p 2 ;;
                (if alive p then proc_terminate p else ret tt)) s
               = (Val tt, s1) /\
               out s1 = out s ++ tr1 /\
               joined tr1 = [p] /\
               terminated tr1 = if alive p then [p] else []).
    { unfold bind at 1. unfold proc_join. unfold bind at 1. unfold emit at 1.
      set (s0 := {| stop_event := stop_event s; pending := pending s;
                    out := out s ++ [ProcJoin p 2] |}).
      destruct (run_total no_shutdown_call deliver s0 total_deliver
                  (run_deliver_gen no_shutdown_call I I))
        as ([] & s1 & E & (tr & Eo & F & _)).
      rewrite E. unfold s0 in Eo. cbn [out] in Eo.
      destruct (no_shutdown_calls tr F) as [Hj Ht].
      destruct (alive p).
      - eexists. exists (ProcJoin p 2 :: tr ++ [ProcTerminate p]).
        split; [reflexivity|]. cbn [out]. rewrite Eo.
        split; [rewrite <- !app_assoc; reflexivity|].
        change (ProcJoin p 2 :: tr ++ [ProcTerminate p])
          with ([ProcJoin p 2] ++ tr ++ [ProcTerminate p]).
        rewrite !joined_app, !terminated_app, Hj, Ht.
        split; reflexivity.
      - exists s1, (ProcJoin p 2 :: tr).
        split; [reflexivity|]. rewrite Eo.
        split; [rewrite <- app_assoc; reflexivity|].
        change (ProcJoin p 2 :: tr) with ([ProcJoin p 2] ++ tr).
        rewrite joined_app, terminated_app, Hj, Ht.
        split; reflexivity. }
    destruct Hbody as (s1 & tr1 & E1 & O1 & J1 & T1). rewrite E1.
    destruct (IH s1) as (s2 & tr2 & E2 & O2 & J2 & T2).
    exists s2, (tr1 ++ tr2). split; [exact E2|]. split.
    + rewrite O2, O1, app_assoc. reflexivity.
    + rewrite joined_app, terminated_app, J1, T1, J2, T2.
      split; [reflexivity|]. simpl. destruct (alive p); reflexivity.
Qed.


